(** * logtracer: the trace graph engine, its context slots, its JSON codec
      and the HTTP instrumentation helpers, embedded in Rocq.

    Sources embedded here:
    - [src/logtracer/graph.py]          Node, Edge, TraceGraph
    - [src/logtracer/context.py]        the two context variables
    - [src/logtracer/serializers.py]    trace_to_json / trace_from_json
    - [src/logtracer/serializers.py]    save_trace_json / load_trace_json
    - [src/logtracer/config.py]         configure, _resolve_storage
    - [src/logtracer/cli.py]            _run_inspect
    - [src/nodetracer/instrumentation/base.py], [requests_.py]

    Python integers are [Z]; dictionaries keyed by strings are
    [gmap string _]; Python lists are [list]; [X | None] is [option X].
    A Python call that may raise is a function into [outcome]; a method
    that mutates [self] is a function from the old object to an outcome
    paired with the new object (the object survives a raise, as in Python). *)

From Stdlib Require Import ZArith QArith_base Sorted Ascii DecimalString DecimalZ.
From stdpp Require Import gmap strings list fin_maps sorting list_numbers.

Set Warnings "-register-all,-clear-no-such-hyp".

Local Open Scope string_scope.
Local Open Scope list_scope.
Local Open Scope Z_scope.

(** ** Exceptions and outcomes *)

(** The exceptions of the model are instances of [Exception], the ones an
    [except Exception] clause catches; [KeyboardInterrupt] and the other
    classes outside [Exception] are not modelled.  [ReError] is [re.error]. *)
Inductive ExcClass :=
  | ValueError
  | RuntimeError
  | ValidationError
  | ReError
  | OtherException (name : string).

Record exn := Exc { exc_class : ExcClass; exc_msg : string }.

Inductive outcome (A : Type) :=
  | Returns (a : A)
  | Raises (e : exn).
Arguments Returns {A} a.
Arguments Raises {A} e.

Definition returned {A} (o : outcome A) : option A :=
  match o with Returns a => Some a | Raises _ => None end.

Definition raised {A} (o : outcome A) : option exn :=
  match o with Returns _ => None | Raises e => Some e end.

(** A computation over a mutable object or world of type [S]. *)
Definition Py (S A : Type) : Type := S -> outcome A * S.

#[global] Instance Py_ret {S} : MRet (Py S) :=
  fun A a s => (Returns a, s).

#[global] Instance Py_bind {S} : MBind (Py S) :=
  fun A B k m s =>
    match m s with
    | (Returns a, s') => k a s'
    | (Raises e, s') => (Raises e, s')
    end.

Definition raise {S A} (e : exn) : Py S A := fun s => (Raises e, s).

Definition get_state {S} : Py S S := fun s => (Returns s, s).

Definition put_state {S} (s : S) : Py S unit := fun _ => (Returns tt, s).

(** ** Graph model ([graph.py]) *)

Inductive NodeStatus := PENDING | RUNNING | COMPLETED | FAILED | CANCELLED.

Inductive EdgeType := CAUSED_BY | DATA_FLOW | BRANCHED_FROM | RETRY_OF | FALLBACK_OF.

#[global] Instance NodeStatus_eq_dec : EqDecision NodeStatus.
Proof. solve_decision. Defined.

#[global] Instance EdgeType_eq_dec : EqDecision EdgeType.
Proof. solve_decision. Defined.

(** The string value of each [StrEnum] member. *)
Definition NodeStatus_value (s : NodeStatus) : string :=
  match s with
  | PENDING => "pending"
  | RUNNING => "running"
  | COMPLETED => "completed"
  | FAILED => "failed"
  | CANCELLED => "cancelled"
  end.

Definition EdgeType_value (t : EdgeType) : string :=
  match t with
  | CAUSED_BY => "caused_by"
  | DATA_FLOW => "data_flow"
  | BRANCHED_FROM => "branched_from"
  | RETRY_OF => "retry_of"
  | FALLBACK_OF => "fallback_of"
  end.

(** A [datetime], as the count of microseconds on its time line: the
    difference of two of them is a [timedelta], an integer number of
    microseconds. *)
Record datetime := Datetime { timestamp_us : Z }.

#[global] Instance datetime_eq_dec : EqDecision datetime.
Proof. solve_decision. Defined.

(** The values a field of type [object] can hold.  [dict[str, object]]
    puts no constraint on the values, so a tuple is as legal as a list.
    A finite [float] is the rational it denotes. *)
Inductive PyObj :=
  | PyNone
  | PyBool (b : bool)
  | PyInt (z : Z)
  | PyFloat (q : Q)
  | PyStr (s : string)
  | PyList (l : list PyObj)
  | PyTuple (l : list PyObj)
  | PyDict (d : gmap string PyObj).

Record Node := mkNode {
  id : string;
  sequence_number : Z;
  name : string;
  node_type : string;
  status : NodeStatus;
  parent_id : option string;
  depth : Z;
  start_time : option datetime;
  end_time : option datetime;
  input_data : gmap string PyObj;
  output_data : gmap string PyObj;
  annotations : list string;
  metadata : gmap string PyObj;
  error : option string;
  error_type : option string;
  error_traceback : option string
}.

Record Edge := mkEdge {
  source_id : string;
  target_id : string;
  edge_type : EdgeType;
  label : string;
  edge_metadata : gmap string PyObj
}.

Record TraceGraph := mkTraceGraph {
  schema_version : string;
  trace_id : string;
  trace_name : string;
  nodes : gmap string Node;
  edges : list Edge;
  trace_start_time : option datetime;
  trace_end_time : option datetime;
  trace_metadata : gmap string PyObj;
  _sequence_counter : Z
}.

(** [(end - start).total_seconds() * 1000.0], as an exact rational:
    microseconds over one thousand. *)
Definition duration_of (st en : option datetime) : option Q :=
  match st, en with
  | Some s, Some e => Some (Qmake (timestamp_us e - timestamp_us s) 1000)
  | _, _ => None
  end.

Definition duration_ms (n : Node) : option Q :=
  duration_of (start_time n) (end_time n).

Definition trace_duration_ms (t : TraceGraph) : option Q :=
  duration_of (trace_start_time t) (trace_end_time t).

Definition set_nodes (ns : gmap string Node) (t : TraceGraph) : TraceGraph :=
  mkTraceGraph (schema_version t) (trace_id t) (trace_name t) ns (edges t)
    (trace_start_time t) (trace_end_time t) (trace_metadata t)
    (_sequence_counter t).

Definition set_edges (es : list Edge) (t : TraceGraph) : TraceGraph :=
  mkTraceGraph (schema_version t) (trace_id t) (trace_name t) (nodes t) es
    (trace_start_time t) (trace_end_time t) (trace_metadata t)
    (_sequence_counter t).

Definition set_counter (c : Z) (t : TraceGraph) : TraceGraph :=
  mkTraceGraph (schema_version t) (trace_id t) (trace_name t) (nodes t)
    (edges t) (trace_start_time t) (trace_end_time t) (trace_metadata t) c.

(** [key in self.nodes] *)
Definition contains (ns : gmap string Node) (key : string) : bool :=
  bool_decide (is_Some (ns !! key)).

Definition root_nodes (t : TraceGraph) : list Node :=
  filter (fun n => parent_id n = None) (map snd (map_to_list (nodes t))).

Definition failed_nodes (t : TraceGraph) : list Node :=
  filter (fun n => status n = FAILED) (map snd (map_to_list (nodes t))).

(** [TraceGraph.next_sequence_number] *)
Definition next_sequence_number : Py TraceGraph Z :=
  self ← get_state ;
  let value := _sequence_counter self in
  put_state (set_counter (_sequence_counter self + 1) self) ;;
  mret value.

(** [TraceGraph.add_node]: [self.nodes[node.id] = node] *)
Definition add_node (node : Node) : Py TraceGraph unit :=
  self ← get_state ;
  put_state (set_nodes (<[id node := node]> (nodes self)) self).

(** [TraceGraph.add_edge] *)
Definition add_edge (edge : Edge) : Py TraceGraph unit :=
  self ← get_state ;
  if negb (contains (nodes self) (source_id edge)) then
    raise (Exc ValueError ("Unknown edge source node id: " +:+ source_id edge))
  else if negb (contains (nodes self) (target_id edge)) then
    raise (Exc ValueError ("Unknown edge target node id: " +:+ target_id edge))
  else
    put_state (set_edges (edges self ++ [edge]) self).

(** The body of the [for] loop of [validate_edge_references], edge by edge. *)
Fixpoint check_edge_references (ns : gmap string Node) (es : list Edge)
  : outcome unit :=
  match es with
  | [] => Returns tt
  | edge :: rest =>
      if negb (contains ns (source_id edge)) then
        Raises (Exc ValueError
                  ("Edge source_id not found in nodes: " +:+ source_id edge))
      else if negb (contains ns (target_id edge)) then
        Raises (Exc ValueError
                  ("Edge target_id not found in nodes: " +:+ target_id edge))
      else check_edge_references ns rest
  end.

(** [TraceGraph.validate_edge_references], the [mode="after"] validator. *)
Definition validate_edge_references (self : TraceGraph) : outcome TraceGraph :=
  match check_edge_references (nodes self) (edges self) with
  | Returns _ => Returns self
  | Raises e => Raises e
  end.

(** [TraceGraph(...)]: pydantic builds the object from its fields, the
    private counter at its default 0, and then runs the after-validator.  A
    [ValueError] raised by a validator reaches the caller as pydantic's
    [ValidationError]; the message of its error entry is ["Value error, "]
    followed by the text of the [ValueError]. *)
Definition as_validation_error {A} (o : outcome A) : outcome A :=
  match o with
  | Raises (Exc ValueError msg) =>
      Raises (Exc ValidationError ("Value error, " +:+ msg))
  | _ => o
  end.

Definition TraceGraph_init (schema_version trace_id name : string)
    (nodes : gmap string Node) (edges : list Edge)
    (start_time end_time : option datetime) (metadata : gmap string PyObj)
  : outcome TraceGraph :=
  as_validation_error
    (validate_edge_references
       (mkTraceGraph schema_version trace_id name nodes edges
          start_time end_time metadata 0)).

(** [TraceGraph(trace_id=...)] with every other field at its default. *)
Definition TraceGraph_default (trace_id : string) : TraceGraph :=
  mkTraceGraph "0.1.0" trace_id "" ∅ [] None None ∅ 0.

(** An edge with an endpoint that names no node of [ns]. *)
Definition dangling (ns : gmap string Node) (e : Edge) : Prop :=
  ns !! source_id e = None ∨ ns !! target_id e = None.

Definition edges_resolved (t : TraceGraph) : Prop :=
  Forall (fun e => is_Some (nodes t !! source_id e) ∧
                   is_Some (nodes t !! target_id e)) (edges t).

(** The error of a failed load names the id [i]. *)
Definition names_missing_id (e : exn) (i : string) : Prop :=
  exc_class e = ValidationError ∧
  (exc_msg e = "Value error, Edge source_id not found in nodes: " +:+ i ∨
   exc_msg e = "Value error, Edge target_id not found in nodes: " +:+ i).

(** [n] successive calls of [next_sequence_number], results in call order. *)
Fixpoint allocate (n : nat) : Py TraceGraph (list Z) :=
  match n with
  | O => mret []
  | S k =>
      v ← next_sequence_number ;
      vs ← allocate k ;
      mret (v :: vs)
  end.

(** *** Graphs produced by the public operations *)

Inductive graph_op :=
  | OpAddNode (node : Node)
  | OpAddEdge (edge : Edge)
  | OpNextSequenceNumber.

Definition run_op (op : graph_op) : Py TraceGraph unit :=
  match op with
  | OpAddNode node => add_node node
  | OpAddEdge edge => add_edge edge
  | OpNextSequenceNumber => next_sequence_number ;; mret tt
  end.

(** A caller that goes on after a failed call: the object is what the
    failed call left. *)
Fixpoint run_ops (ops : list graph_op) (t : TraceGraph) : TraceGraph :=
  match ops with
  | [] => t
  | op :: rest => run_ops rest (run_op op t).2
  end.

(** The depth rule of the data model, for one node of a graph. *)
Definition depth_rule (t : TraceGraph) (n : Node) : Prop :=
  (depth n = 0 ↔ parent_id n = None) ∧
  (∀ p pn, parent_id n = Some p → nodes t !! p = Some pn →
           depth n = depth pn + 1).

Definition depth_invariant (t : TraceGraph) : Prop :=
  ∀ k n, nodes t !! k = Some n → depth_rule t n.

(** Every parent link resolves inside the graph and no depth is negative. *)
Definition parents_resolved (t : TraceGraph) : Prop :=
  ∀ k n, nodes t !! k = Some n →
    0 ≤ depth n ∧
    (∀ p, parent_id n = Some p → is_Some (nodes t !! p)).

(** What a node inserted into [t] looks like when its [parent_id] and
    [depth] were computed from a node already in [t] and its id is new. *)
Definition linked_to (t : TraceGraph) (n : Node) : bool :=
  negb (contains (nodes t) (id n)) &&
  match parent_id n with
  | None => bool_decide (depth n = 0)
  | Some p =>
      match nodes t !! p with
      | Some pn => bool_decide (depth n = depth pn + 1)
      | None => false
      end
  end.

(** All [add_node] calls of a run insert nodes linked to the graph they
    are inserted in. *)
Fixpoint all_linked (ops : list graph_op) (t : TraceGraph) : bool :=
  match ops with
  | [] => true
  | op :: rest =>
      match op with
      | OpAddNode node => linked_to t node
      | _ => true
      end && all_linked rest (run_op op t).2
  end.

(** ** Context propagation ([context.py]) *)

(** A [contextvars.ContextVar] inside one [Context].  [binding] is the value
    bound there, [None] while the variable was never set (or was reset to
    that state) and [get] falls back on the default.  [set] hands out a
    token recording what was bound before ([Token.MISSING] is [None]);
    [reset] takes a token that has not been used yet, restores what it
    recorded and marks it used, and raises [RuntimeError] on a second use. *)
Module ContextVar.
Section contextvar.
Context {V : Type}.

Record t := mk { binding : option V; issued : nat; unused : gset nat }.

Record Token := mkToken { old_value : option V; serial : nat }.

Definition new : t := mk None 0%nat ∅.

Definition get (default : V) : Py t V :=
  fun var =>
    (Returns (match binding var with Some v => v | None => default end),
     var).

Definition set (value : V) : Py t Token :=
  fun var =>
    (Returns (mkToken (binding var) (issued var)),
     mk (Some value) (S (issued var)) ({[issued var]} ∪ unused var)).

Definition reset (token : Token) : Py t unit :=
  fun var =>
    if bool_decide (serial token ∈ unused var) then
      (Returns tt,
       mk (old_value token) (issued var) (unused var ∖ {[serial token]}))
    else
      (Raises (Exc RuntimeError "Token has already been used once"), var).
End contextvar.
Arguments t : clear implicits.
Arguments Token : clear implicits.
End ContextVar.

(** The module state of [context.py]: the two variables, both with
    [default=None]. *)
Record Context := mkContext {
  _current_trace : ContextVar.t (option TraceGraph);
  _current_node : ContextVar.t (option Node)
}.

Definition Context_new : Context := mkContext ContextVar.new ContextVar.new.

(** Run a computation on one variable of the module state. *)
Definition on_trace_var {A} (m : Py (ContextVar.t (option TraceGraph)) A)
  : Py Context A :=
  fun ctx =>
    let '(r, var) := m (_current_trace ctx) in
    (r, mkContext var (_current_node ctx)).

Definition on_node_var {A} (m : Py (ContextVar.t (option Node)) A)
  : Py Context A :=
  fun ctx =>
    let '(r, var) := m (_current_node ctx) in
    (r, mkContext (_current_trace ctx) var).

Definition get_current_trace : Py Context (option TraceGraph) :=
  on_trace_var (ContextVar.get None).

Definition get_current_node : Py Context (option Node) :=
  on_node_var (ContextVar.get None).

Definition push_current_trace (trace : TraceGraph)
  : Py Context (ContextVar.Token (option TraceGraph)) :=
  on_trace_var (ContextVar.set (Some trace)).

Definition push_current_node (node : option Node)
  : Py Context (ContextVar.Token (option Node)) :=
  on_node_var (ContextVar.set node).

Definition reset_current_trace (token : ContextVar.Token (option TraceGraph))
  : Py Context unit :=
  on_trace_var (ContextVar.reset token).

Definition reset_current_node (token : ContextVar.Token (option Node))
  : Py Context unit :=
  on_node_var (ContextVar.reset token).

Definition clear_context : Py Context unit :=
  on_trace_var (ContextVar.set None) ;;
  on_node_var (ContextVar.set None) ;;
  mret tt.

(** Correctly nested use of the push/reset pairs: each scope pushes, runs
    the scopes nested in it one after the other, and resets with the token
    its own push returned. *)
Inductive scope :=
  | TraceScope (trace : TraceGraph) (body : list scope)
  | NodeScope (node : option Node) (body : list scope).

Fixpoint run_scope (s : scope) : Py Context unit :=
  let run_body :=
    fix run_body (body : list scope) : Py Context unit :=
      match body with
      | [] => mret tt
      | s' :: rest => run_scope s' ;; run_body rest
      end in
  match s with
  | TraceScope trace body =>
      token ← push_current_trace trace ;
      run_body body ;;
      reset_current_trace token
  | NodeScope node body =>
      token ← push_current_node node ;
      run_body body ;;
      reset_current_node token
  end.

Fixpoint run_scopes (body : list scope) : Py Context unit :=
  match body with
  | [] => mret tt
  | s :: rest => run_scope s ;; run_scopes rest
  end.

(** What a well-nested run leaves of one variable: the binding it found,
    and the tokens handed out before it as usable as they were. *)
Definition var_frame {V} (v v' : ContextVar.t V) : Prop :=
  ContextVar.binding v' = ContextVar.binding v ∧
  (ContextVar.issued v ≤ ContextVar.issued v')%nat ∧
  ∀ i, (i < ContextVar.issued v)%nat →
       i ∈ ContextVar.unused v' ↔ i ∈ ContextVar.unused v.

Definition ctx_frame (c c' : Context) : Prop :=
  var_frame (_current_trace c) (_current_trace c') ∧
  var_frame (_current_node c) (_current_node c').

(** ** JSON codec ([serializers.py])

    [trace_to_json] is [trace.model_dump_json(indent=indent)] and
    [trace_from_json] is [TraceGraph.model_validate_json(payload)]: both are
    pydantic's, driven by the field declarations of [graph.py].  They are
    embedded at the level of the JSON document: the text layer (quoting,
    whitespace, [indent]) is left to the JSON reader and writer. *)

Inductive json :=
  | JNull
  | JBool (b : bool)
  | JInt (z : Z)
  | JFloat (q : Q)
  | JStr (s : string)
  | JArr (l : list json)
  | JObj (o : gmap string json).

#[global] Instance outcome_ret : MRet outcome := fun A a => Returns a.

#[global] Instance outcome_bind : MBind outcome :=
  fun A B k m =>
    match m with
    | Returns a => k a
    | Raises e => Raises e
    end.

#[global] Instance outcome_fmap : FMap outcome :=
  fun A B f m =>
    match m with
    | Returns a => Returns (f a)
    | Raises e => Raises e
    end.

(** How pydantic writes a value of a field typed [object]: by its run-time
    type, a tuple as an array like a list. *)
Fixpoint to_json (v : PyObj) : json :=
  match v with
  | PyNone => JNull
  | PyBool b => JBool b
  | PyInt z => JInt z
  | PyFloat q => JFloat q
  | PyStr s => JStr s
  | PyList l => JArr (map to_json l)
  | PyTuple l => JArr (map to_json l)
  | PyDict d => JObj (to_json <$> d)
  end.

(** How pydantic reads a JSON value into a field typed [object]: as the
    plain Python value of the JSON value, an array as a list. *)
Fixpoint from_json (j : json) : PyObj :=
  match j with
  | JNull => PyNone
  | JBool b => PyBool b
  | JInt z => PyInt z
  | JFloat q => PyFloat q
  | JStr s => PyStr s
  | JArr l => PyList (map from_json l)
  | JObj o => PyDict (from_json <$> o)
  end.

(** The payload values JSON has a form of its own for: everything but
    tuples, at any depth. *)
Fixpoint json_native (v : PyObj) : bool :=
  match v with
  | PyList l => forallb json_native l
  | PyTuple _ => false
  | PyDict d => map_fold (fun _ x b => json_native x && b) true d
  | _ => true
  end.

(** The number of constructors of a payload value, the measure its
    induction principle descends on. *)
Fixpoint PyObj_size (v : PyObj) : nat :=
  match v with
  | PyList l | PyTuple l => S (foldr (fun x n => PyObj_size x + n)%nat 0%nat l)
  | PyDict d => S (map_fold (fun _ x n => PyObj_size x + n)%nat 0%nat d)
  | _ => 1%nat
  end.

Definition json_native_dict (d : gmap string PyObj) : bool :=
  json_native (PyDict d).

Definition json_native_node (n : Node) : bool :=
  json_native_dict (input_data n) && json_native_dict (output_data n) &&
  json_native_dict (metadata n).

Definition json_native_trace (t : TraceGraph) : bool :=
  json_native_dict (trace_metadata t) &&
  forallb (fun kn => json_native_node kn.2) (map_to_list (nodes t)) &&
  forallb (fun e => json_native_dict (edge_metadata e)) (edges t).

(** The datetimes a trace holds. *)
Definition option_list {A} (o : option A) : list A :=
  match o with Some a => [a] | None => [] end.

Definition datetimes (t : TraceGraph) : list datetime :=
  option_list (trace_start_time t) ++ option_list (trace_end_time t) ++
  concat (map (fun kn => option_list (start_time kn.2) ++
                         option_list (end_time kn.2))
            (map_to_list (nodes t))).

Definition invalid {A} (msg : string) : outcome A :=
  Raises (Exc ValidationError msg).

(** All the entries validated, or the error of an entry that failed. *)
Definition sequence_map {A} (m : gmap string (outcome A))
  : outcome (gmap string A) :=
  match map_to_list (omap raised m) with
  | [] => Returns (omap returned m)
  | (_, e) :: _ => Raises e
  end.

Fixpoint sequence_list {A} (l : list (outcome A)) : outcome (list A) :=
  match l with
  | [] => Returns []
  | m :: rest =>
      a ← m ;
      as' ← sequence_list rest ;
      mret (a :: as')
  end.

(** A field of a JSON object: validated when present, its default (when it
    has one) when absent. *)
Definition field {A} (o : gmap string json) (key : string)
    (validate : json → outcome A) (default : option A) : outcome A :=
  match o !! key with
  | Some j => validate j
  | None =>
      match default with
      | Some a => Returns a
      | None => invalid (key +:+ ": Field required")
      end
  end.

(** Strict-mode validators of the field types, on JSON input. *)
Definition validate_str (j : json) : outcome string :=
  match j with
  | JStr s => Returns s
  | _ => invalid "Input should be a valid string"
  end.

Definition validate_int (j : json) : outcome Z :=
  match j with
  | JInt z => Returns z
  | _ => invalid "Input should be a valid integer"
  end.

Definition validate_optional {A} (validate : json → outcome A) (j : json)
  : outcome (option A) :=
  match j with
  | JNull => Returns None
  | _ => Some <$> validate j
  end.

Definition validate_list {A} (validate : json → outcome A) (j : json)
  : outcome (list A) :=
  match j with
  | JArr l => sequence_list (map validate l)
  | _ => invalid "Input should be a valid list"
  end.

Definition validate_dict {A} (validate : string → json → outcome A) (j : json)
  : outcome (gmap string A) :=
  match j with
  | JObj o => sequence_map (map_imap (fun k v => Some (validate k v)) o)
  | _ => invalid "Input should be an object"
  end.

Definition validate_object (j : json) : outcome PyObj := Returns (from_json j).

Definition validate_payload : json → outcome (gmap string PyObj) :=
  validate_dict (fun _ => validate_object).

Definition NodeStatus_members : list NodeStatus :=
  [PENDING; RUNNING; COMPLETED; FAILED; CANCELLED].

Definition EdgeType_members : list EdgeType :=
  [CAUSED_BY; DATA_FLOW; BRANCHED_FROM; RETRY_OF; FALLBACK_OF].

Definition validate_NodeStatus (j : json) : outcome NodeStatus :=
  match j with
  | JStr s =>
      match filter (fun m => NodeStatus_value m = s) NodeStatus_members with
      | m :: _ => Returns m
      | [] => invalid "Input should be 'pending', 'running', 'completed', 'failed' or 'cancelled'"
      end
  | _ => invalid "Input should be a valid string"
  end.

Definition validate_EdgeType (j : json) : outcome EdgeType :=
  match j with
  | JStr s =>
      match filter (fun m => EdgeType_value m = s) EdgeType_members with
      | m :: _ => Returns m
      | [] => invalid "Input should be 'caused_by', 'data_flow', 'branched_from', 'retry_of' or 'fallback_of'"
      end
  | _ => invalid "Input should be a valid string"
  end.

Definition json_of_option {A} (f : A → json) (o : option A) : json :=
  match o with Some a => f a | None => JNull end.

Section codec.

(** The text of a [datetime] in JSON and its reading back are pydantic's;
    [uuid4_hex] is the identifier [uuid4().hex] draws when a document leaves
    out an id, by the place in the document where it is needed. *)
Variable isoformat : datetime → string.
Variable fromisoformat : string → option datetime.
Variable uuid4_hex : string → string.

Definition validate_datetime (j : json) : outcome datetime :=
  match j with
  | JStr s =>
      match fromisoformat s with
      | Some d => Returns d
      | None => invalid "Input should be a valid datetime"
      end
  | _ => invalid "Input should be a valid datetime"
  end.

Definition json_of_datetime (d : datetime) : json := JStr (isoformat d).

(** [Node.model_dump(mode="json")]: the declared fields and the computed
    field [duration_ms]. *)
Definition Node_dump (n : Node) : json :=
  JObj (list_to_map
    [("id", JStr (id n));
     ("sequence_number", JInt (sequence_number n));
     ("name", JStr (name n));
     ("node_type", JStr (node_type n));
     ("status", JStr (NodeStatus_value (status n)));
     ("parent_id", json_of_option JStr (parent_id n));
     ("depth", JInt (depth n));
     ("start_time", json_of_option json_of_datetime (start_time n));
     ("end_time", json_of_option json_of_datetime (end_time n));
     ("input_data", JObj (to_json <$> input_data n));
     ("output_data", JObj (to_json <$> output_data n));
     ("annotations", JArr (map JStr (annotations n)));
     ("metadata", JObj (to_json <$> metadata n));
     ("error", json_of_option JStr (error n));
     ("error_type", json_of_option JStr (error_type n));
     ("error_traceback", json_of_option JStr (error_traceback n));
     ("duration_ms", json_of_option JFloat (duration_ms n))]).

Definition Edge_dump (e : Edge) : json :=
  JObj (list_to_map
    [("source_id", JStr (source_id e));
     ("target_id", JStr (target_id e));
     ("edge_type", JStr (EdgeType_value (edge_type e)));
     ("label", JStr (label e));
     ("metadata", JObj (to_json <$> edge_metadata e))]).

(** The private attribute [_sequence_counter] is not a field: it is not
    written. *)
Definition TraceGraph_dump (t : TraceGraph) : json :=
  JObj (list_to_map
    [("schema_version", JStr (schema_version t));
     ("trace_id", JStr (trace_id t));
     ("name", JStr (trace_name t));
     ("nodes", JObj (Node_dump <$> nodes t));
     ("edges", JArr (map Edge_dump (edges t)));
     ("start_time", json_of_option json_of_datetime (trace_start_time t));
     ("end_time", json_of_option json_of_datetime (trace_end_time t));
     ("metadata", JObj (to_json <$> trace_metadata t));
     ("duration_ms", json_of_option JFloat (trace_duration_ms t))]).

(** [Node.model_validate] on JSON input; keys that are no field (such as
    [duration_ms]) are ignored. *)
Definition Node_validate (key : string) (j : json) : outcome Node :=
  match j with
  | JObj o =>
      id ← field o "id" validate_str (Some (uuid4_hex key)) ;
      sequence_number ← field o "sequence_number" validate_int None ;
      name ← field o "name" validate_str None ;
      node_type ← field o "node_type" validate_str None ;
      status ← field o "status" validate_NodeStatus (Some PENDING) ;
      parent_id ← field o "parent_id" (validate_optional validate_str)
                    (Some None) ;
      depth ← field o "depth" validate_int (Some 0) ;
      start_time ← field o "start_time" (validate_optional validate_datetime)
                     (Some None) ;
      end_time ← field o "end_time" (validate_optional validate_datetime)
                   (Some None) ;
      input_data ← field o "input_data" validate_payload (Some ∅) ;
      output_data ← field o "output_data" validate_payload (Some ∅) ;
      annotations ← field o "annotations" (validate_list validate_str)
                      (Some []) ;
      metadata ← field o "metadata" validate_payload (Some ∅) ;
      error ← field o "error" (validate_optional validate_str) (Some None) ;
      error_type ← field o "error_type" (validate_optional validate_str)
                     (Some None) ;
      error_traceback ← field o "error_traceback"
                          (validate_optional validate_str) (Some None) ;
      mret (mkNode id sequence_number name node_type status parent_id depth
              start_time end_time input_data output_data annotations
              metadata error error_type error_traceback)
  | _ => invalid "Input should be an object"
  end.

Definition Edge_validate (j : json) : outcome Edge :=
  match j with
  | JObj o =>
      source_id ← field o "source_id" validate_str None ;
      target_id ← field o "target_id" validate_str None ;
      edge_type ← field o "edge_type" validate_EdgeType (Some CAUSED_BY) ;
      label ← field o "label" validate_str (Some "") ;
      metadata ← field o "metadata" validate_payload (Some ∅) ;
      mret (mkEdge source_id target_id edge_type label metadata)
  | _ => invalid "Input should be an object"
  end.

(** [TraceGraph.model_validate_json], first half: the fields are validated
    and the object is built, its private counter at the default 0. *)
Definition TraceGraph_fields (j : json) : outcome TraceGraph :=
  match j with
  | JObj o =>
      schema_version ← field o "schema_version" validate_str (Some "0.1.0") ;
      trace_id ← field o "trace_id" validate_str (Some (uuid4_hex "")) ;
      name ← field o "name" validate_str (Some "") ;
      nodes ← field o "nodes" (validate_dict Node_validate) (Some ∅) ;
      edges ← field o "edges" (validate_list Edge_validate) (Some []) ;
      start_time ← field o "start_time" (validate_optional validate_datetime)
                     (Some None) ;
      end_time ← field o "end_time" (validate_optional validate_datetime)
                   (Some None) ;
      metadata ← field o "metadata" validate_payload (Some ∅) ;
      mret (mkTraceGraph schema_version trace_id name nodes edges start_time
              end_time metadata 0)
  | _ => invalid "Input should be an object"
  end.

(** Second half: the after-validator runs on the object. *)
Definition TraceGraph_validate (j : json) : outcome TraceGraph :=
  self ← TraceGraph_fields j ;
  as_validation_error (validate_edge_references self).

(** [trace_to_json(trace, indent=...)] *)
Definition trace_to_json (trace : TraceGraph) (indent : option Z) : json :=
  TraceGraph_dump trace.

(** [trace_from_json(payload)] *)
Definition trace_from_json (payload : json) : outcome TraceGraph :=
  TraceGraph_validate payload.

End codec.

(** A codec for closed examples: a datetime written as its microsecond
    count in decimal. *)
Definition decimal_isoformat (d : datetime) : string :=
  NilEmpty.string_of_int (Z.to_int (timestamp_us d)).

Definition decimal_fromisoformat (s : string) : option datetime :=
  (fun i => Datetime (Z.of_int i)) <$> NilEmpty.int_of_string s.

Definition counting_uuid4_hex (place : string) : string := "uuid-" +:+ place.

(** ** Concurrent callers of one trace

    Several threads call methods of one [TraceGraph].  The bodies take no
    lock, so the interpreter may switch threads between any two statements
    of a body; each statement is taken as one indivisible step (the
    coarsest grain the code allows).  A thread is the call it makes and the
    place it has reached in the body. *)

Inductive place :=
  | Start
  | Loaded (value : Z)
  | SourceChecked
  | TargetChecked
  | Done (result : outcome (option Z)).

Record thread := mkThread { call : graph_op; at_place : place }.

Record shared := mkShared { object : TraceGraph; threads : list thread }.

(** The call as one piece, with the value it returns. *)
Definition run_call (op : graph_op) : Py TraceGraph (option Z) :=
  match op with
  | OpAddNode node => add_node node ;; mret None
  | OpAddEdge edge => add_edge edge ;; mret None
  | OpNextSequenceNumber => value ← next_sequence_number ; mret (Some value)
  end.

(** The next statement of the thread's body, on the shared object. *)
Definition thread_step (th : thread) (self : TraceGraph)
  : thread * TraceGraph :=
  match call th, at_place th with
  | OpNextSequenceNumber, Start =>
      (* value = self._sequence_counter *)
      (mkThread (call th) (Loaded (_sequence_counter self)), self)
  | OpNextSequenceNumber, Loaded value =>
      (* self._sequence_counter += 1; return value *)
      (mkThread (call th) (Done (Returns (Some value))),
       set_counter (_sequence_counter self + 1) self)
  | OpAddNode node, Start =>
      (* self.nodes[node.id] = node *)
      (mkThread (call th) (Done (Returns None)),
       set_nodes (<[id node := node]> (nodes self)) self)
  | OpAddEdge edge, Start =>
      (* if edge.source_id not in self.nodes: raise ... *)
      if negb (contains (nodes self) (source_id edge)) then
        (mkThread (call th)
           (Done (Raises (Exc ValueError
              ("Unknown edge source node id: " +:+ source_id edge)))), self)
      else (mkThread (call th) SourceChecked, self)
  | OpAddEdge edge, SourceChecked =>
      (* if edge.target_id not in self.nodes: raise ... *)
      if negb (contains (nodes self) (target_id edge)) then
        (mkThread (call th)
           (Done (Raises (Exc ValueError
              ("Unknown edge target node id: " +:+ target_id edge)))), self)
      else (mkThread (call th) TargetChecked, self)
  | OpAddEdge edge, TargetChecked =>
      (* self.edges.append(edge) *)
      (mkThread (call th) (Done (Returns None)),
       set_edges (edges self ++ [edge]) self)
  | _, _ => (th, self)
  end.

(** Thread [i] runs its next statement. *)
Definition schedule_step (i : nat) (c : shared) : shared :=
  match threads c !! i with
  | Some th =>
      let '(th', self') := thread_step th (object c) in
      mkShared self' (<[i := th']> (threads c))
  | None => c
  end.

Definition run_schedule (schedule : list nat) (c : shared) : shared :=
  foldl (fun c i => schedule_step i c) c schedule.

(** All the calls about to start on one object. *)
Definition spawn (ops : list graph_op) (self : TraceGraph) : shared :=
  mkShared self (map (fun op => mkThread op Start) ops).

(** The schedule in which thread 0 runs its whole body, then thread 1,
    and so on: no body has more than three statements. *)
Definition serial_schedule (n : nat) : list nat :=
  concat (map (fun i => [i; i; i]) (seq 0 n)).

(** What the threads hold after the calls were made one after the other. *)
Fixpoint serial_results (ops : list graph_op) (self : TraceGraph)
  : list thread :=
  match ops with
  | [] => []
  | op :: rest =>
      mkThread op (Done (run_call op self).1)
        :: serial_results rest (run_call op self).2
  end.

Fixpoint serial_object (ops : list graph_op) (self : TraceGraph) : TraceGraph :=
  match ops with
  | [] => self
  | op :: rest => serial_object rest (run_call op self).2
  end.

(** The values the finished [next_sequence_number] calls returned. *)
Definition allocated (ths : list thread) : list Z :=
  omap (fun th =>
          match call th, at_place th with
          | OpNextSequenceNumber, Done (Returns (Some value)) => Some value
          | _, _ => None
          end) ths.

(** A finished insertion is in the object. *)
Definition inserted (th : thread) (self : TraceGraph) : Prop :=
  match call th with
  | OpAddEdge edge => edge ∈ edges self
  | OpAddNode node => is_Some (nodes self !! id node)
  | OpNextSequenceNumber => True
  end.

Definition grows (self self' : TraceGraph) : Prop :=
  (∀ e, e ∈ edges self → e ∈ edges self') ∧
  (∀ k, is_Some (nodes self !! k) → is_Some (nodes self' !! k)).

(** Every finished insertion of every thread is in the object. *)
Definition insertions_kept (c : shared) : Prop :=
  ∀ i th r, threads c !! i = Some th → at_place th = Done (Returns r) →
            inserted th (object c).

(** ** HTTP instrumentation ([instrumentation/base.py], [requests_.py])

    The world the instrumentation runs in: the context variables, the
    warnings shown so far, and the state of everything outside (the clock,
    the network, the data of the spans). *)
Record World (Env : Type) := mkWorld {
  context : Context;
  warnings_log : list string;
  outside : Env
}.
Arguments mkWorld {Env} _ _ _.
Arguments context {Env} _.
Arguments warnings_log {Env} _.
Arguments outside {Env} _.

(** What the instrumentation calls and the sources do not hold.  [Span]
    ([core/span.py]) is not among the sources: its constructor and methods
    are parameters, each free to return or to raise.  [perf_counter],
    [round2] ([round(x, 2)]), [re_search] (whether [re.search(pattern, url)]
    finds a match, or what it raises) and the request method that gets
    patched belong to Python and to the HTTP library. *)
Class Runtime := {
  Env : Type;
  Span : Type;
  Response : Type;
  Args : Type;
  Span_init : TraceGraph → string → string → Py (World Env) Span;
  Span_input : Span → gmap string PyObj → Py (World Env) unit;
  Span_output : Span → gmap string PyObj → Py (World Env) unit;
  Span_set_status : Span → NodeStatus → Py (World Env) unit;
  Span_enter : Span → Py (World Env) unit;
  Span_exit : Span → option exn → Py (World Env) unit;
  perf_counter : World Env → Q * World Env;
  round2 : Q → Q;
  re_search : string → string → outcome bool;
  status_code : Response → Z;
  _original_request : Args → string → string → Py (World Env) (option Response)
}.

#[global] Instance ExcClass_eq_dec : EqDecision ExcClass.
Proof. solve_decision. Defined.

(** [str.upper], on ASCII letters. *)
Definition upper_ascii (c : ascii) : ascii :=
  let n := nat_of_ascii c in
  if ((97 <=? n) && (n <=? 122))%nat then ascii_of_nat (n - 32) else c.

Fixpoint upper (s : string) : string :=
  match s with
  | EmptyString => EmptyString
  | String c rest => String (upper_ascii c) (upper rest)
  end.

(** [try: body / except Exception as exc: handler(exc)] *)
Definition try_except {S A} (body : Py S A) (handler : exn → Py S A) : Py S A :=
  fun s =>
    match body s with
    | (Returns a, s') => (Returns a, s')
    | (Raises exc, s') => handler exc s'
    end.

(** [try: body / except Exception as exc: handler(exc) / finally: final],
    where [final] reads the [exc_info] the handler stored: [None] unless
    the [except] clause was entered.  An exception raised by [final]
    replaces whatever the rest was about to return or raise. *)
Definition try_except_finally {S A} (body : Py S A) (handler : exn → Py S A)
    (final : option exn → Py S unit) : Py S A :=
  fun s =>
    let '(result, exc_info, s1) :=
      match body s with
      | (Returns a, s') => (Returns a, None, s')
      | (Raises exc, s') =>
          let '(r, s'') := handler exc s' in (r, Some exc, s'')
      end in
    match final exc_info s1 with
    | (Returns _, s2) => (result, s2)
    | (Raises exc', s2) => (Raises exc', s2)
    end.

Section instrumentation.
Context {R : Runtime}.

(** A call that does not touch the world. *)
Definition pure_call {A} (o : outcome A) : Py (World Env) A := fun w => (o, w).

(** What [get_current_trace()] reads in a world. *)
Definition current_trace_of (w : World Env) : option TraceGraph :=
  match ContextVar.binding (_current_trace (context w)) with
  | Some trace => trace
  | None => None
  end.

(** A computation on the context variables, inside the world. *)
Definition in_context {A} (m : Py Context A) : Py (World Env) A :=
  fun w =>
    let '(r, ctx) := m (context w) in
    (r, mkWorld ctx (warnings_log w) (outside w)).

(** [warnings.warn(message)], under the default filter: the warning is
    shown and the call returns. *)
Definition warn (message : string) : Py (World Env) unit :=
  fun w => (Returns tt, mkWorld (context w) (warnings_log w ++ [message])
                          (outside w)).

Definition _span_name (method url : string) : string :=
  upper method +:+ " " +:+ url.

(** The [for] loop of [_should_skip]. *)
Fixpoint search_patterns (url : string) (patterns : list string)
  : outcome bool :=
  match patterns with
  | [] => Returns false
  | pattern :: rest =>
      match re_search pattern url with
      | Returns true => Returns true
      | Returns false => search_patterns url rest
      | Raises exc =>
          if decide (exc_class exc = ReError) then search_patterns url rest
          else Raises exc
      end
  end.

(** The pattern finds a match in the URL. *)
Definition matches (url pattern : string) : bool :=
  match re_search pattern url with
  | Returns true => true
  | _ => false
  end.

Definition _should_skip (url : string) (exclude_urls : option (list string))
  : outcome bool :=
  match exclude_urls with
  | None | Some [] => Returns false
  | Some patterns => search_patterns url patterns
  end.

Definition _apply_url_filter (url : string)
    (url_filter : option (string → outcome string)) : outcome string :=
  match url_filter with
  | None => Returns url
  | Some f =>
      match f url with
      | Returns filtered => Returns filtered
      | Raises _ => Returns url
      end
  end.

Definition create_http_span (method url : string)
    (url_filter : option (string → outcome string))
    (exclude_urls : option (list string)) : Py (World Env) (option Span) :=
  trace ← in_context get_current_trace ;
  match trace with
  | None => mret None
  | Some trace =>
      filtered_url ← pure_call (_apply_url_filter url url_filter) ;
      skip ← pure_call (_should_skip filtered_url exclude_urls) ;
      if skip : bool then mret None
      else
        let name := _span_name method filtered_url in
        span ← Span_init trace name "http_request" ;
        Span_input span {[ "method" := PyStr (upper method);
                           "url" := PyStr filtered_url ]} ;;
        mret (Some span)
  end.

Definition record_http_response (span : Span) (status : option Z)
    (duration_ms : Q) (error : option string) : Py (World Env) unit :=
  try_except
    (let output : gmap string PyObj :=
       {[ "duration_ms" := PyFloat (round2 duration_ms) ]} in
     let output :=
       match status with
       | Some code => <["status_code" := PyInt code]> output
       | None => output
       end in
     output ← match error with
              | Some text =>
                  Span_set_status span FAILED ;;
                  mret (<["error" := PyStr text]> output)
              | None => mret output
              end ;
     Span_output span output)
    (fun _ => warn "nodetracer: failed to record HTTP response on span").

Definition elapsed_ms (start : Q) : Py (World Env) Q :=
  fun w =>
    let '(now, w') := perf_counter w in
    (Returns (Qmult (Qminus now start) (Qmake 1000 1)), w').

(** The wrapper [instrument_requests] puts in the place of
    [requests.Session.request]. *)
Definition _patched_request
    (url_filter : option (string → outcome string))
    (exclude_urls : option (list string))
    (args : Args) (method url : string) : Py (World Env) (option Response) :=
  span ← create_http_span method url url_filter exclude_urls ;
  match span with
  | None => _original_request args method url
  | Some span =>
      Span_enter span ;;
      start ← (fun w => let '(t, w') := perf_counter w in (Returns t, w')) ;
      try_except_finally
        (response ← _original_request args method url ;
         let status := status_code <$> response in
         duration ← elapsed_ms start ;
         record_http_response span status duration None ;;
         mret response)
        (fun exc =>
           duration ← elapsed_ms start ;
           record_http_response span None duration (Some (exc_msg exc)) ;;
           raise exc)
        (fun exc_info => Span_exit span exc_info)
  end.

End instrumentation.

(** A runtime for closed examples: spans are their names, recording on a
    span always raises, the pattern ["("] is invalid, any other pattern
    matches the URL equal to it, and the request to ["https://down/"]
    fails. *)
#[local] Instance failing_recorder : Runtime := {|
  Env := unit;
  Span := string;
  Response := Z;
  Args := unit;
  Span_init := fun _ name _ => mret name;
  Span_input := fun _ _ => mret tt;
  Span_output := fun _ _ => raise (Exc (OtherException "TypeError") "bad value");
  Span_set_status :=
    fun _ _ => raise (Exc (OtherException "TypeError") "bad status");
  Span_enter := fun _ => mret tt;
  Span_exit := fun _ _ => mret tt;
  perf_counter := fun w => (Qmake 5 1, w);
  round2 := fun q => q;
  re_search :=
    fun pattern url =>
      if decide (pattern = "(") then
        Raises (Exc ReError "missing ), unterminated subpattern")
      else Returns (bool_decide (pattern = url));
  status_code := fun code => code;
  _original_request :=
    fun _ _ url =>
      if decide (url = "https://down/") then
        raise (Exc (OtherException "ConnectionError") "Connection refused")
      else mret (Some 200)
|}.

(** Field-for-field equality on the fields of the schema (the private
    counter is not one of them). *)
Definition schema_equal (a b : TraceGraph) : Prop :=
  schema_version a = schema_version b ∧ trace_id a = trace_id b ∧
  trace_name a = trace_name b ∧ nodes a = nodes b ∧ edges a = edges b ∧
  trace_start_time a = trace_start_time b ∧
  trace_end_time a = trace_end_time b ∧
  trace_metadata a = trace_metadata b.

(** ** Sample data, to run the definitions on concrete inputs *)

Definition sample_node (i : string) (seq : Z) (parent : option string) (d : Z)
  : Node :=
  mkNode i seq ("step-" +:+ i) "custom" PENDING parent d None None ∅ ∅ [] ∅
    None None None.

Definition sample_trace : TraceGraph :=
  run_ops [OpAddNode (sample_node "a" 0 None 0);
           OpAddNode (sample_node "b" 1 (Some "a") 1)]
    (TraceGraph_default "t0").

(** A node with every optional field set and a full error payload. *)
Definition failed_node : Node :=
  mkNode "b" 1 "step-2" "tool_call" FAILED (Some "a") 1
    (Some (Datetime 1000)) (Some (Datetime 3500))
    {[ "x" := PyInt 1; "tags" := PyList [PyStr "p"; PyNone] ]}
    {[ "y" := PyDict {[ "ok" := PyBool false ]} ]}
    ["first note"; "second note"] {[ "attempt" := PyInt 2 ]}
    (Some "boom") (Some "RuntimeError") (Some "Traceback ...").

(** A trace that has handed out two sequence numbers: a root with its
    optional fields unset, a failed child, and an edge between them. *)
Definition rich_trace : TraceGraph :=
  mkTraceGraph "0.1.0" "t1" "pipeline"
    {[ "a" := sample_node "a" 0 None 0; "b" := failed_node ]}
    [mkEdge "a" "b" DATA_FLOW "feeds" {[ "w" := PyInt 3 ]}]
    (Some (Datetime 0)) None {[ "env" := PyStr "test" ]} 2.

(** A valid trace whose metadata holds a tuple. *)
Definition tuple_trace : TraceGraph :=
  mkTraceGraph "0.1.0" "t2" "" ∅ [] None None
    {[ "k" := PyTuple [PyInt 1; PyInt 2] ]} 0.

(** The parts of a trace with an edge to a node that is not there. *)
Definition dangling_edges : list Edge :=
  [mkEdge "a" "b" CAUSED_BY "" ∅; mkEdge "a" "zz" CAUSED_BY "" ∅].

(** A JSON document of a trace with one root node, written with depth 5. *)
Definition deep_root_document : json :=
  JObj {[ "trace_id" := JStr "t4";
          "nodes" := JObj {[ "a" := JObj {[ "id" := JStr "a";
                                            "sequence_number" := JInt 0;
                                            "name" := JStr "load";
                                            "node_type" := JStr "custom";
                                            "depth" := JInt 5 ]} ]} ]}.

(** A world in which [sample_trace] is the current trace. *)
Definition tracing_world : World unit :=
  mkWorld (push_current_trace sample_trace Context_new).2 [] tt.

(** ** Runs of graph operations, seen from their ends *)

(** The node the calls of a run put last under a key, if any did. *)
Fixpoint last_added (key : string) (ops : list graph_op) : option Node :=
  match ops with
  | [] => None
  | op :: rest =>
      match last_added key rest with
      | Some n => Some n
      | None =>
          match op with
          | OpAddNode node => if decide (id node = key) then Some node else None
          | _ => None
          end
      end
  end.

Definition is_allocation (op : graph_op) : bool :=
  match op with OpNextSequenceNumber => true | _ => false end.

(** The node reached from [n] by following [parent_id] a number of times
    inside the graph. *)
Fixpoint ancestor (t : TraceGraph) (steps : nat) (n : Node) : option Node :=
  match steps with
  | O => Some n
  | S k =>
      match parent_id n with
      | None => None
      | Some p =>
          match nodes t !! p with
          | Some pn => ancestor t k pn
          | None => None
          end
      end
  end.

(** What [validate_edge_references] raises for an edge that dangles:
    the source is looked at first. *)
Definition first_missing (ns : gmap string Node) (e : Edge) : exn :=
  if negb (contains ns (source_id e)) then
    Exc ValueError ("Edge source_id not found in nodes: " +:+ source_id e)
  else
    Exc ValueError ("Edge target_id not found in nodes: " +:+ target_id e).

(** How many calls of a run are allocations of a sequence number. *)
Definition allocations (ops : list graph_op) : nat :=
  length (List.filter is_allocation ops).

(** ** What the codec makes of any payload *)

Fixpoint json_size (j : json) : nat :=
  match j with
  | JArr l => S (foldr (fun x n => json_size x + n)%nat 0%nat l)
  | JObj o => S (map_fold (fun _ x n => json_size x + n)%nat 0%nat o)
  | _ => 1%nat
  end.

(** A payload value as it comes back from its JSON: tuples as lists, at
    every depth. *)
Definition normalize (v : PyObj) : PyObj := from_json (to_json v).

Definition normalize_node (n : Node) : Node :=
  mkNode (id n) (sequence_number n) (name n) (node_type n) (status n)
    (parent_id n) (depth n) (start_time n) (end_time n)
    (normalize <$> input_data n) (normalize <$> output_data n)
    (annotations n) (normalize <$> metadata n)
    (error n) (error_type n) (error_traceback n).

Definition normalize_edge (e : Edge) : Edge :=
  mkEdge (source_id e) (target_id e) (edge_type e) (label e)
    (normalize <$> edge_metadata e).

Definition normalize_trace (t : TraceGraph) : TraceGraph :=
  mkTraceGraph (schema_version t) (trace_id t) (trace_name t)
    (normalize_node <$> nodes t) (map normalize_edge (edges t))
    (trace_start_time t) (trace_end_time t) (normalize <$> trace_metadata t)
    (_sequence_counter t).

(** The keys [TraceGraph] reads from a document. *)
Definition TraceGraph_field_names : list string :=
  ["schema_version"; "trace_id"; "name"; "nodes"; "edges"; "start_time";
   "end_time"; "metadata"].

(** The entries of a document of a trace with one node, kept under a key
    that is not its id. *)
Definition sample_node_entries : gmap string json :=
  {[ "k1" := JObj {[ "id" := JStr "a";
                     "sequence_number" := JInt 0;
                     "name" := JStr "load";
                     "node_type" := JStr "custom" ]} ]}.

Definition sample_fields : gmap string json :=
  {[ "trace_id" := JStr "t5"; "nodes" := JObj sample_node_entries ]}.

(** ** Files ([serializers.py])

    What [save_trace_json] and [load_trace_json] ask of the file system and
    of the two JSON readers.  [parent], [mkdir_parents]
    ([mkdir(parents=True, exist_ok=True)]), [write_text] and [read_text] are
    [pathlib]'s; [write_json] is the writer inside [model_dump_json];
    [json_loads] is [json.loads], whose result [load_trace_json] drops;
    [read_json] is the reader inside [model_validate_json]. *)
Class Files := {
  Disk : Type;
  Text : Type;
  parent : string → string;
  mkdir_parents : string → Py Disk unit;
  write_text : string → Text → Py Disk unit;
  read_text : string → Py Disk Text;
  write_json : json → option Z → Text;
  json_loads : Text → outcome json;
  read_json : Text → outcome json
}.

(** A call that changes nothing outside itself. *)
Definition without_effect {S A} (o : outcome A) : Py S A := fun s => (o, s).

Section files.
Context {F : Files}.
Variable isoformat : datetime → string.
Variable fromisoformat : string → option datetime.
Variable uuid4_hex : string → string.

(** [trace_to_json] and [trace_from_json] with their text. *)
Definition trace_to_text (trace : TraceGraph) (indent : option Z) : Text :=
  write_json (trace_to_json isoformat trace indent) indent.

Definition trace_from_text (payload : Text) : outcome TraceGraph :=
  doc ← read_json payload ;
  trace_from_json fromisoformat uuid4_hex doc.

Definition save_trace_json (trace : TraceGraph) (path : string)
    (indent : option Z) : Py Disk string :=
  let output_path := path in
  mkdir_parents (parent output_path) ;;
  write_text output_path (trace_to_text trace indent) ;;
  mret output_path.

Definition load_trace_json (path : string) : Py Disk TraceGraph :=
  payload ← read_text path ;
  (* Validate as raw JSON first for clearer parse errors. *)
  without_effect (json_loads payload) ;;
  without_effect (trace_from_text payload).

End files.

(** Files for closed examples: a disk is a map from paths to documents,
    the text of a document is the document, directories always exist. *)
#[local] Instance document_store : Files := {|
  Disk := gmap string json;
  Text := json;
  parent := fun path => path;
  mkdir_parents := fun _ => mret tt;
  write_text := fun path text disk => (Returns tt, <[path := text]> disk);
  read_text :=
    fun path disk =>
      match disk !! path with
      | Some text => (Returns text, disk)
      | None =>
          (Raises (Exc (OtherException "FileNotFoundError") path), disk)
      end;
  write_json := fun doc _ => doc;
  json_loads := fun text => Returns text;
  read_json := fun text => Returns text
|}.

(** ** Patching the request method ([instrument_requests]) *)

(** The same runtime with another function in the place of the request
    method: what the wrapper finds as [_original_request] is whatever
    [Session.request] was when [instrument_requests] ran. *)
Definition with_request (R : Runtime)
    (request : Args → string → string → Py (World Env) (option Response))
  : Runtime := {|
  Env := Env;
  Span := Span;
  Response := Response;
  Args := Args;
  Span_init := Span_init;
  Span_input := Span_input;
  Span_output := Span_output;
  Span_set_status := Span_set_status;
  Span_enter := Span_enter;
  Span_exit := Span_exit;
  perf_counter := perf_counter;
  round2 := round2;
  re_search := re_search;
  status_code := status_code;
  _original_request := request
|}.

(** The arguments of one call of [instrument_requests]. *)
Record Instrumentation := mkInstrumentation {
  url_filter_of : option (string → outcome string);
  exclude_urls_of : option (list string)
}.

(** [Session.request] after the calls of [instrument_requests] listed, the
    latest first: each call wraps what it found. *)
Fixpoint Session_request (R : Runtime) (layers : list Instrumentation)
  : Args → string → string → Py (World Env) (option Response) :=
  match layers with
  | [] => _original_request
  | layer :: rest =>
      _patched_request (R := with_request R (Session_request R rest))
        (url_filter_of layer) (exclude_urls_of layer)
  end.

(** [instrument_requests(url_filter=..., exclude_urls=...)], on the list of
    layers [Session.request] is made of; [requests_installed] tells whether
    [import requests] succeeds. *)
Definition instrument_requests {R : Runtime} (requests_installed : bool)
    (layer : Instrumentation) (layers : list Instrumentation)
  : Py (World Env) (list Instrumentation) :=
  if negb requests_installed then
    warn "nodetracer: requests not installed. Run pip install nodetracer[http]." ;;
    mret layers
  else mret (layer :: layers).

(** A pattern that lets the loop of [_should_skip] go on: it finds no match
    or raises [re.error]. *)
Definition passes_over {R : Runtime} (url pattern : string) : Prop :=
  re_search pattern url = Returns false ∨
  ∃ exc, re_search pattern url = Raises exc ∧ exc_class exc = ReError.

(** A runtime for closed examples in which the pattern ["a{99999999999}"]
    makes [re.search] raise [OverflowError], as CPython's does for a
    repetition count that large. *)
#[local] Instance overflowing_recorder : Runtime := {|
  Env := unit;
  Span := string;
  Response := Z;
  Args := unit;
  Span_init := fun _ name _ => mret name;
  Span_input := fun _ _ => mret tt;
  Span_output := fun _ _ => mret tt;
  Span_set_status := fun _ _ => mret tt;
  Span_enter := fun _ => mret tt;
  Span_exit := fun _ _ => mret tt;
  perf_counter := fun w => (Qmake 5 1, w);
  round2 := fun q => q;
  re_search :=
    fun pattern url =>
      if decide (pattern = "a{99999999999}") then
        Raises (Exc (OtherException "OverflowError")
                  "the repetition number is too large")
      else Returns (bool_decide (pattern = url));
  status_code := fun code => code;
  _original_request := fun _ _ _ => mret (Some 200)
|}.

(** A world in which no trace is current. *)
Definition idle_world : World unit := mkWorld Context_new [] tt.

(** ** Runtime configuration ([config.py]) *)

Inductive CaptureLevel := minimal | standard | full.

(** [s.startswith(prefix)] *)
Fixpoint startswith (s prefix : string) {struct prefix} : bool :=
  match prefix, s with
  | EmptyString, _ => true
  | String c prefix', String d s' => Ascii.eqb c d && startswith s' prefix'
  | String _ _, EmptyString => false
  end.

(** [s[n:]] *)
Fixpoint drop_chars (n : nat) (s : string) : string :=
  match n, s with
  | O, _ => s
  | S k, String _ s' => drop_chars k s'
  | S _, EmptyString => EmptyString
  end.

(** [s.removeprefix(prefix)] *)
Definition removeprefix (s prefix : string) : string :=
  if startswith s prefix then drop_chars (String.length prefix) s else s.

Section config.

(** The storage classes ([storage/memory.py], [storage/file.py]) are not
    among the sources: [MemoryStore()] and [FileStore(path)] are what their
    constructors return. *)
Variable StorageBackend : Type.
Variable MemoryStore : StorageBackend.
Variable FileStore : string → StorageBackend.

(** The argument [storage: str | StorageBackend]. *)
Inductive storage_arg :=
  | Shorthand (s : string)
  | Backend (b : StorageBackend).

Record Settings := mkSettings {
  capture_level : CaptureLevel;
  auto_instrument : list string;
  storage : StorageBackend;
  redact_patterns : list string;
  max_output_size : option Z
}.

(** [Settings()] *)
Definition Settings_default : Settings := mkSettings full [] MemoryStore [] None.

Definition _resolve_storage (storage : storage_arg) : outcome StorageBackend :=
  match storage with
  | Backend b => Returns b
  | Shorthand s =>
      if decide (s = "memory") then Returns MemoryStore
      else if startswith s "file://" then
        Returns (FileStore (removeprefix s "file://"))
      else
        Raises (Exc ValueError
          "Unsupported storage value. Use 'memory', 'file://<path>', or a StorageBackend instance.")
  end.

(** [configure(...)], on the module's [_settings] object: the fields are
    assigned one after the other. *)
Definition configure (level : CaptureLevel)
    (instrument : option (list string)) (store : storage_arg)
    (redact : option (list string)) (max_size : option Z) : Py Settings unit :=
  _settings ← get_state ;
  put_state (mkSettings level (auto_instrument _settings) (storage _settings)
               (redact_patterns _settings) (max_output_size _settings)) ;;
  _settings ← get_state ;
  put_state (mkSettings (capture_level _settings) (default [] instrument)
               (storage _settings) (redact_patterns _settings)
               (max_output_size _settings)) ;;
  resolved ← without_effect (_resolve_storage store) ;
  _settings ← get_state ;
  put_state (mkSettings (capture_level _settings) (auto_instrument _settings)
               resolved (redact_patterns _settings)
               (max_output_size _settings)) ;;
  _settings ← get_state ;
  put_state (mkSettings (capture_level _settings) (auto_instrument _settings)
               (storage _settings) (default [] redact)
               (max_output_size _settings)) ;;
  _settings ← get_state ;
  put_state (mkSettings (capture_level _settings) (auto_instrument _settings)
               (storage _settings) (redact_patterns _settings) max_size).

(** [get_settings()] *)
Definition get_settings : Py Settings Settings := get_state.

End config.

Arguments Shorthand {StorageBackend} s.
Arguments Backend {StorageBackend} b.

(** Storage objects for closed examples. *)
Inductive sample_store := InMemory | OnDisk (path : string).

(** ** The inspect command ([cli.py]) *)

(** [collections.Counter(keys)]: how often each key occurs.  The members of
    a [StrEnum] are strings, so both counters of [_run_inspect] count
    strings. *)
Definition Counter (keys : list string) : gmap string nat :=
  foldl (fun counts key => <[key := S (default 0%nat (counts !! key))]> counts)
    ∅ keys.

(** One more occurrence of a key, and the sum of all the counts. *)
Definition bump (counts : gmap string nat) (key : string) : gmap string nat :=
  <[key := S (default 0%nat (counts !! key))]> counts.

Definition total (counts : gmap string nat) : nat :=
  sum_list_with snd (map_to_list counts).

Definition item_le (a b : string * nat) : Prop := String.leb a.1 b.1 = true.

#[global] Instance item_le_dec : RelDecision item_le.
Proof. intros a b. unfold item_le. apply _. Defined.

(** [sorted(counts.items(), key=lambda item: item[0])] *)
Definition sorted_items (counts : gmap string nat) : list (string * nat) :=
  merge_sort item_le (map_to_list counts).

(** [str(n)] *)
Definition str_of_nat (n : nat) : string :=
  NilZero.string_of_uint (Nat.to_uint n).

Definition node_values (trace : TraceGraph) : list Node :=
  (map_to_list (nodes trace)).*2.

Definition status_counts (trace : TraceGraph) : gmap string nat :=
  Counter ((fun node => NodeStatus_value (status node)) <$> node_values trace).

Definition type_counts (trace : TraceGraph) : gmap string nat :=
  Counter (node_type <$> node_values trace).

Definition count_line (item : string * nat) : string :=
  "  - " +:+ item.1 +:+ ": " +:+ str_of_nat item.2.

(** What the command works on: the files and what was printed. *)
Record Terminal (Disk : Type) := mkTerminal {
  disk : Disk;
  stdout : list string
}.
Arguments mkTerminal {Disk} _ _.
Arguments disk {Disk} _.
Arguments stdout {Disk} _.

Section cli.
Context {F : Files}.
Variable fromisoformat : string → option datetime.
Variable uuid4_hex : string → string.

(** [render_trace] ([console.py]) is not among the sources; [format_0f] is
    the float format [:.0f].  The verbosity has the three values of the
    capture level. *)
Variable render_trace : TraceGraph → CaptureLevel → outcome string.
Variable format_0f : Q → string.

Definition print (line : string) : Py (Terminal Disk) unit :=
  fun t => (Returns tt, mkTerminal (disk t) (stdout t ++ [line])).

Definition on_disk {A} (m : Py Disk A) : Py (Terminal Disk) A :=
  fun t => let '(r, d) := m (disk t) in (r, mkTerminal d (stdout t)).

Fixpoint print_all (lines : list string) : Py (Terminal Disk) unit :=
  match lines with
  | [] => mret tt
  | line :: rest => print line ;; print_all rest
  end.

Definition _run_inspect (trace_file : string) (verbosity : CaptureLevel)
  : Py (Terminal Disk) Z :=
  trace ← on_disk (load_trace_json fromisoformat uuid4_hex trace_file) ;
  let duration :=
    match trace_duration_ms trace with
    | Some ms => format_0f ms +:+ "ms"
    | None => "unknown"
    end in
  print ("Trace ID: " +:+ trace_id trace) ;;
  print ("Name: " +:+ (if decide (trace_name trace = "") then "<unnamed>"
                       else trace_name trace)) ;;
  print ("Schema: " +:+ schema_version trace) ;;
  print ("Duration: " +:+ duration) ;;
  print ("Nodes: " +:+ str_of_nat (size (nodes trace))) ;;
  print ("Edges: " +:+ str_of_nat (length (edges trace))) ;;
  print "Status counts:" ;;
  print_all (count_line <$> sorted_items (status_counts trace)) ;;
  print "Node type counts:" ;;
  print_all (count_line <$> sorted_items (type_counts trace)) ;;
  print "" ;;
  rendered ← without_effect (render_trace trace verbosity) ;
  print rendered ;;
  mret 0.

End cli.

(** * Properties *)

(** ** Graph model *)

Lemma contains_true ns k : contains ns k = true ↔ is_Some (ns !! k).
Proof. unfold contains. by rewrite bool_decide_eq_true. Qed.

Lemma contains_false ns k : contains ns k = false ↔ ns !! k = None.
Proof.
  unfold contains. rewrite bool_decide_eq_false. by rewrite eq_None_not_Some.
Qed.

Lemma add_edge_unfold edge self :
  add_edge edge self =
    if negb (contains (nodes self) (source_id edge)) then
      (Raises (Exc ValueError
                 ("Unknown edge source node id: " +:+ source_id edge)), self)
    else if negb (contains (nodes self) (target_id edge)) then
      (Raises (Exc ValueError
                 ("Unknown edge target node id: " +:+ target_id edge)), self)
    else (Returns tt, set_edges (edges self ++ [edge]) self).
Proof.
  unfold add_edge, mbind, Py_bind, get_state, raise, put_state.
  by repeat case_match.
Qed.

(** C1. [add_edge] raises the referential-integrity [ValueError] exactly
    when an endpoint id is missing from [nodes]; a raise leaves the graph as
    it was; a normal return has appended this edge, and nothing else, at the
    end of [edges], all other fields (the nodes map among them) kept. *)
Theorem add_edge_referential_integrity (self : TraceGraph) (edge : Edge) :
  ((∃ e, (add_edge edge self).1 = Raises e ∧ exc_class e = ValueError) ↔
     dangling (nodes self) edge) ∧
  (∀ e, (add_edge edge self).1 = Raises e → (add_edge edge self).2 = self) ∧
  ((add_edge edge self).1 = Returns tt ↔ ¬ dangling (nodes self) edge) ∧
  ((add_edge edge self).1 = Returns tt →
     (add_edge edge self).2 = set_edges (edges self ++ [edge]) self ∧
     edges (add_edge edge self).2 = edges self ++ [edge] ∧
     nodes (add_edge edge self).2 = nodes self).
Proof.
  rewrite add_edge_unfold. unfold dangling.
  destruct (contains (nodes self) (source_id edge)) eqn:Hs;
    destruct (contains (nodes self) (target_id edge)) eqn:Ht; simpl;
    try apply contains_true in Hs; try apply contains_true in Ht;
    try apply contains_false in Hs; try apply contains_false in Ht.
  - destruct Hs as [x Hs], Ht as [y Ht]. rewrite Hs, Ht.
    split_and!; [split| |split|]; try done.
    + by intros (? & ? & ?).
    + by intros [|].
    + by intros _ [|].
  - destruct Hs as [x Hs]. rewrite Hs, Ht.
    split_and!; [split| |split|]; try done.
    + intros _. by right.
    + intros _. by eexists.
    + intros H. destruct H. by right.
  - rewrite Hs. split_and!; [split| |split|]; try done.
    + intros _. by left.
    + intros _. by eexists.
    + intros H. destruct H. by left.
  - rewrite Hs. split_and!; [split| |split|]; try done.
    + intros _. by left.
    + intros _. by eexists.
    + intros H. destruct H. by left.
Qed.

Lemma add_edge_referential_integrity_witness :
  (add_edge (mkEdge "a" "b" CAUSED_BY "" ∅) sample_trace).1 = Returns tt ∧
  edges (add_edge (mkEdge "a" "b" CAUSED_BY "" ∅) sample_trace).2
    = [mkEdge "a" "b" CAUSED_BY "" ∅] ∧
  (add_edge (mkEdge "a" "zz" CAUSED_BY "" ∅) sample_trace).1
    = Raises (Exc ValueError "Unknown edge target node id: zz") ∧
  (add_edge (mkEdge "a" "zz" CAUSED_BY "" ∅) sample_trace).2 = sample_trace.
Proof.
  pose proof (add_edge_referential_integrity sample_trace
                (mkEdge "a" "b" CAUSED_BY "" ∅)) as (_ & _ & Hok & Happ).
  pose proof (add_edge_referential_integrity sample_trace
                (mkEdge "a" "zz" CAUSED_BY "" ∅)) as (_ & Hsame & _ & _).
  assert ((add_edge (mkEdge "a" "b" CAUSED_BY "" ∅) sample_trace).1
          = Returns tt) as Hret by (vm_compute; reflexivity).
  split; [exact Hret|]. split; [exact (proj1 (proj2 (Happ Hret)))|].
  split; [vm_compute; reflexivity|].
  apply (Hsame (Exc ValueError "Unknown edge target node id: zz")).
  vm_compute; reflexivity.
Defined.

Lemma next_sequence_number_unfold self :
  next_sequence_number self =
    (Returns (_sequence_counter self),
     set_counter (_sequence_counter self + 1) self).
Proof. reflexivity. Qed.

Lemma set_counter_set_counter c c' t :
  set_counter c (set_counter c' t) = set_counter c t.
Proof. reflexivity. Qed.

Lemma allocate_from (n : nat) (self : TraceGraph) :
  allocate n self =
    (Returns ((λ i : nat, _sequence_counter self + Z.of_nat i) <$> seq 0 n),
     if n is O then self
     else set_counter (_sequence_counter self + Z.of_nat n) self).
Proof.
  revert self. induction n as [|n IH]; intros self; [done|].
  change (allocate (S n)) with
    (v ← next_sequence_number ; vs ← allocate n ; mret (v :: vs)).
  unfold mbind at 1, Py_bind at 1. rewrite next_sequence_number_unfold.
  unfold mbind, Py_bind. rewrite IH. unfold mret, Py_ret. f_equal.
  - f_equal. simpl. f_equal; [f_equal; lia|].
    rewrite <- seq_shift, <- list_fmap_compose. apply list_fmap_ext.
    intros _ i _. simpl. lia.
  - destruct n; simpl _sequence_counter; [f_equal; lia|].
    rewrite set_counter_set_counter. f_equal. lia.
Qed.

Lemma of_nat_seq_sorted (a n : nat) :
  StronglySorted Z.lt (Z.of_nat <$> seq a n).
Proof.
  revert a. induction n as [|n IH]; intros a; simpl; constructor; [apply IH|].
  apply Forall_forall. intros z Hz. apply list_elem_of_fmap in Hz as (i & -> & Hi).
  apply list_elem_of_In, in_seq in Hi. lia.
Qed.

(** C4. [next_sequence_number] returns the counter and leaves it one
    higher; [n] successive calls on a trace whose counter is 0, as a newly
    created one's is, return exactly 0, 1, ..., n-1, a strictly increasing
    list without repeats. *)
Theorem next_sequence_number_allocates (self : TraceGraph) (n : nat) :
  (next_sequence_number self).1 = Returns (_sequence_counter self) ∧
  _sequence_counter (next_sequence_number self).2 = _sequence_counter self + 1 ∧
  (next_sequence_number self).2
    = set_counter (_sequence_counter self + 1) self ∧
  (_sequence_counter self = 0 →
     (allocate n self).1 = Returns (Z.of_nat <$> seq 0 n) ∧
     StronglySorted Z.lt (Z.of_nat <$> seq 0 n) ∧
     NoDup (Z.of_nat <$> seq 0 n)).
Proof.
  repeat split; try done.
  - rewrite allocate_from. simpl. f_equal. apply list_fmap_ext.
    intros _ i _. lia.
  - apply of_nat_seq_sorted.
  - apply NoDup_fmap; [intros x y; apply Nat2Z.inj | apply NoDup_seq].
Qed.

Lemma next_sequence_number_allocates_witness :
  (allocate 4 (TraceGraph_default "t0")).1 = Returns [0; 1; 2; 3] ∧
  StronglySorted Z.lt [0; 1; 2; 3] ∧ NoDup [0; 1; 2; 3].
Proof.
  apply (next_sequence_number_allocates (TraceGraph_default "t0") 4).
  reflexivity.
Defined.

(** *** The depth rule *)

Lemma run_op_nodes op t :
  nodes (run_op op t).2 =
    match op with
    | OpAddNode node => <[id node := node]> (nodes t)
    | _ => nodes t
    end.
Proof.
  destruct op as [node|edge|]; try reflexivity.
  simpl run_op. rewrite add_edge_unfold. by repeat case_match.
Qed.

Lemma depth_rule_nodes_eq t t' n :
  nodes t' = nodes t → depth_rule t n → depth_rule t' n.
Proof. unfold depth_rule. by intros ->. Qed.

Lemma add_node_keeps_depth_rule t node :
  linked_to t node = true →
  depth_invariant t ∧ parents_resolved t →
  depth_invariant (add_node node t).2 ∧ parents_resolved (add_node node t).2.
Proof.
  unfold linked_to. rewrite andb_true_iff, negb_true_iff, contains_false.
  intros [Hfresh Hlink] [Hinv Hres].
  assert (0 ≤ depth node ∧
          (depth node = 0 ↔ parent_id node = None) ∧
          ∀ p, parent_id node = Some p →
               ∃ pn, nodes t !! p = Some pn ∧ depth node = depth pn + 1)
    as (Hnn & Hiff & Hpar).
  { destruct (parent_id node) as [p|] eqn:Hp.
    - destruct (nodes t !! p) as [pn|] eqn:Hpn; [|done].
      apply bool_decide_eq_true in Hlink.
      destruct (Hres p pn Hpn) as [Hge _].
      split_and!; [lia|split; [lia|done]|].
      intros q [= <-]. by exists pn.
    - apply bool_decide_eq_true in Hlink. split_and!; [lia|done|done]. }
  change (nodes (add_node node t).2) with (<[id node := node]> (nodes t)) in *.
  assert (∀ p, is_Some (nodes t !! p) →
               <[id node := node]> (nodes t) !! p = nodes t !! p) as Hold.
  { intros p [pn Hp]. apply lookup_insert_ne. intros <-. congruence. }
  split.
  - intros k n. change (nodes (add_node node t).2)
      with (<[id node := node]> (nodes t)).
    rewrite lookup_insert. destruct (decide (id node = k)) as [Hk|Hk].
    + intros [= <-]. split; [done|]. intros p pn Hp.
      destruct (Hpar p Hp) as (pn' & Hpn' & Hd).
      change (nodes (add_node node t).2) with (<[id node := node]> (nodes t)).
      rewrite Hold by eauto. congruence.
    + intros Hn. destruct (Hinv k n Hn) as [Hz Hp]. split; [done|].
      intros p pn Hpp.
      change (nodes (add_node node t).2) with (<[id node := node]> (nodes t)).
      destruct (Hres k n Hn) as [_ Hex]. rewrite Hold by eauto. by apply Hp.
  - intros k n. change (nodes (add_node node t).2)
      with (<[id node := node]> (nodes t)).
    rewrite lookup_insert. destruct (decide (id node = k)) as [Hk|Hk].
    + intros [= <-]. split; [done|]. intros p Hp.
      destruct (Hpar p Hp) as (pn' & Hpn' & Hd). rewrite Hold; eauto.
    + intros Hn. destruct (Hres k n Hn) as [Hge Hex]. split; [done|].
      intros p Hp. rewrite Hold; eauto.
Qed.

Lemma run_op_keeps_depth_rule op t :
  match op with OpAddNode node => linked_to t node | _ => true end = true →
  depth_invariant t ∧ parents_resolved t →
  depth_invariant (run_op op t).2 ∧ parents_resolved (run_op op t).2.
Proof.
  destruct op as [node|edge|]; [apply add_node_keeps_depth_rule|..];
    intros _ [Hinv Hres].
  - pose proof (run_op_nodes (OpAddEdge edge) t) as He.
    unfold depth_invariant, parents_resolved, depth_rule in *.
    by rewrite He.
  - pose proof (run_op_nodes OpNextSequenceNumber t) as Hn.
    unfold depth_invariant, parents_resolved, depth_rule in *.
    by rewrite Hn.
Qed.

Lemma run_ops_keeps_depth_rule ops t :
  all_linked ops t = true →
  depth_invariant t ∧ parents_resolved t →
  depth_invariant (run_ops ops t) ∧ parents_resolved (run_ops ops t).
Proof.
  revert t. induction ops as [|op ops IH]; intros t; [done|].
  simpl. rewrite andb_true_iff. intros [Hop Hrest] Ht.
  apply IH; [done|]. by apply run_op_keeps_depth_rule.
Qed.

(** C6, as the code has it.  The graph model checks no depth: [Node] takes
    any [depth] and [add_node] inserts without looking.  The rule holds of
    every graph grown from an empty trace by calls in which each inserted
    node has a new id and either no parent and depth 0, or the id of a node
    already in the graph as parent and that node's depth plus one; every
    parent link then resolves, so the rule reaches every ancestor. *)
Theorem depth_rule_of_linked_nodes (trace_id : string) (ops : list graph_op) :
  all_linked ops (TraceGraph_default trace_id) = true →
  depth_invariant (run_ops ops (TraceGraph_default trace_id)) ∧
  parents_resolved (run_ops ops (TraceGraph_default trace_id)).
Proof.
  intros Hops. apply run_ops_keeps_depth_rule; [done|].
  split; intros k n; simpl; by rewrite lookup_empty.
Qed.

Lemma depth_rule_of_linked_nodes_witness :
  depth_invariant sample_trace ∧ parents_resolved sample_trace.
Proof.
  apply (depth_rule_of_linked_nodes "t0"
           [OpAddNode (sample_node "a" 0 None 0);
            OpAddNode (sample_node "b" 1 (Some "a") 1)]).
  vm_compute. reflexivity.
Defined.

(** C6 as stated fails: a root node with depth 5 is a valid [Node];
    [add_node] puts it into a new trace, and [trace_from_json] accepts a
    document that holds one. *)
Lemma depth_is_not_checked :
  (∃ n, nodes (run_ops [OpAddNode (sample_node "a" 0 None 5)]
                 (TraceGraph_default "t0")) !! "a" = Some n ∧
        parent_id n = None ∧ depth n = 5 ∧
        ¬ depth_rule (run_ops [OpAddNode (sample_node "a" 0 None 5)]
                        (TraceGraph_default "t0")) n) ∧
  (∃ g n, trace_from_json decimal_fromisoformat counting_uuid4_hex
            deep_root_document = Returns g ∧
          nodes g !! "a" = Some n ∧ parent_id n = None ∧ depth n = 5 ∧
          ¬ depth_rule g n).
Proof.
  split.
  - exists (sample_node "a" 0 None 5). split_and!; try reflexivity.
    intros [[_ Hiff] _]. by specialize (Hiff eq_refl).
  - eexists _, (mkNode "a" 0 "load" "custom" PENDING None 5 None None ∅ ∅ []
                  ∅ None None None).
    split_and!; [vm_compute; reflexivity|vm_compute; reflexivity|done|done|].
    intros [[_ Hiff] _]. by specialize (Hiff eq_refl).
Qed.

(** ** Context propagation *)

Lemma var_frame_refl {V} (v : ContextVar.t V) : var_frame v v.
Proof. by split_and!. Qed.

Lemma var_frame_trans {V} (v1 v2 v3 : ContextVar.t V) :
  var_frame v1 v2 → var_frame v2 v3 → var_frame v1 v3.
Proof.
  intros (Hb & Hi & Hu) (Hb' & Hi' & Hu'). split_and!; [congruence|lia|].
  intros i Hlt. rewrite Hu' by lia. by apply Hu.
Qed.

Lemma ctx_frame_refl c : ctx_frame c c.
Proof. split; apply var_frame_refl. Qed.

Lemma ctx_frame_trans c1 c2 c3 :
  ctx_frame c1 c2 → ctx_frame c2 c3 → ctx_frame c1 c3.
Proof. intros [??] [??]. split; by eapply var_frame_trans. Qed.

(** A push, a framed run, and the reset with the push's token. *)
Lemma set_reset_frame {V} (value : V) (v v2 : ContextVar.t V) :
  var_frame (ContextVar.set value v).2 v2 →
  ∃ v3, ContextVar.reset
          (ContextVar.mkToken (ContextVar.binding v) (ContextVar.issued v)) v2
        = (Returns tt, v3) ∧ var_frame v v3.
Proof.
  intros (Hb & Hi & Hu). simpl in *. unfold ContextVar.reset. simpl.
  rewrite bool_decide_eq_true_2; [|apply Hu; [lia|set_solver]].
  eexists; split; [done|]. split_and!; simpl; [done|lia|].
  intros i Hlt. rewrite elem_of_difference, Hu by lia. set_solver by lia.
Qed.

Lemma scope_ind' (P : scope → Prop) :
  (∀ trace body, Forall P body → P (TraceScope trace body)) →
  (∀ node body, Forall P body → P (NodeScope node body)) →
  ∀ s, P s.
Proof.
  intros Ht Hn. fix IH 1. intros [trace body|node body].
  - apply Ht. induction body as [|s body IHb]; constructor; [apply IH|apply IHb].
  - apply Hn. induction body as [|s body IHb]; constructor; [apply IH|apply IHb].
Qed.

Lemma run_scopes_frame body :
  Forall (λ s, ∀ c, ∃ c', run_scope s c = (Returns tt, c') ∧ ctx_frame c c')
    body →
  ∀ c, ∃ c', run_scopes body c = (Returns tt, c') ∧ ctx_frame c c'.
Proof.
  induction 1 as [|s body Hs _ IH]; intros c.
  - exists c. split; [done|apply ctx_frame_refl].
  - destruct (Hs c) as (c1 & Hrun & Hf1). destruct (IH c1) as (c2 & Hrun2 & Hf2).
    exists c2. split; [|by eapply ctx_frame_trans].
    simpl. unfold mbind, Py_bind. by rewrite Hrun.
Qed.

Lemma run_scope_unfold s :
  run_scope s =
    match s with
    | TraceScope trace body =>
        token ← push_current_trace trace ;
        run_scopes body ;; reset_current_trace token
    | NodeScope node body =>
        token ← push_current_node node ;
        run_scopes body ;; reset_current_node token
    end.
Proof.
  assert (∀ body,
    (fix run_body (body : list scope) : Py Context unit :=
       match body with
       | [] => mret tt
       | s' :: rest => run_scope s' ;; run_body rest
       end) body = run_scopes body) as Hbody.
  { induction body as [|s' rest IH]; [done|]. simpl. by rewrite IH. }
  destruct s; simpl; by rewrite Hbody.
Qed.

Lemma run_scope_frame s :
  ∀ c, ∃ c', run_scope s c = (Returns tt, c') ∧ ctx_frame c c'.
Proof.
  induction s as [trace body IH|node body IH] using scope_ind'; intros c;
    rewrite run_scope_unfold; destruct c as [tv nv].
  - destruct (run_scopes_frame body IH
                (mkContext (ContextVar.set (Some trace) tv).2 nv))
      as ([tv2 nv2] & Hrun & Htf & Hnf).
    destruct (set_reset_frame (Some trace) tv tv2 Htf) as (tv3 & Hreset & Hf).
    exists (mkContext tv3 nv2). split; [|by split].
    unfold mbind, Py_bind, push_current_trace, reset_current_trace,
      on_trace_var. simpl in *. rewrite Hrun. simpl. by rewrite Hreset.
  - destruct (run_scopes_frame body IH
                (mkContext tv (ContextVar.set node nv).2))
      as ([tv2 nv2] & Hrun & Htf & Hnf).
    destruct (set_reset_frame node nv nv2 Hnf) as (nv3 & Hreset & Hf).
    exists (mkContext tv2 nv3). split; [|by split].
    unfold mbind, Py_bind, push_current_node, reset_current_node,
      on_node_var. simpl in *. rewrite Hrun. simpl. by rewrite Hreset.
Qed.

(** C7. Whatever the trace slot held before, unset and [None] included,
    [push_current_trace t] makes [t] current and [reset_current_trace] with
    the returned token returns normally and puts back exactly what was
    there, so [get_current_trace] reads what it read before the push; the
    node slot does the same with [push_current_node] / [reset_current_node];
    and any well-nested run of such pairs returns normally and leaves both
    slots as it found them. *)
Theorem push_reset_restores_prior_value (ctx : Context) :
  (∀ trace, ∃ token ctx1 ctx2,
     push_current_trace trace ctx = (Returns token, ctx1) ∧
     (get_current_trace ctx1).1 = Returns (Some trace) ∧
     reset_current_trace token ctx1 = (Returns tt, ctx2) ∧
     ContextVar.binding (_current_trace ctx2)
       = ContextVar.binding (_current_trace ctx) ∧
     _current_node ctx2 = _current_node ctx ∧
     (get_current_trace ctx2).1 = (get_current_trace ctx).1) ∧
  (∀ node, ∃ token ctx1 ctx2,
     push_current_node node ctx = (Returns token, ctx1) ∧
     (get_current_node ctx1).1 = Returns node ∧
     reset_current_node token ctx1 = (Returns tt, ctx2) ∧
     ContextVar.binding (_current_node ctx2)
       = ContextVar.binding (_current_node ctx) ∧
     _current_trace ctx2 = _current_trace ctx ∧
     (get_current_node ctx2).1 = (get_current_node ctx).1) ∧
  (∀ s, ∃ ctx',
     run_scope s ctx = (Returns tt, ctx') ∧
     ContextVar.binding (_current_trace ctx')
       = ContextVar.binding (_current_trace ctx) ∧
     ContextVar.binding (_current_node ctx')
       = ContextVar.binding (_current_node ctx) ∧
     (get_current_trace ctx').1 = (get_current_trace ctx).1 ∧
     (get_current_node ctx').1 = (get_current_node ctx).1).
Proof.
  destruct ctx as [tv nv]. split_and!.
  - intros trace.
    destruct (set_reset_frame (Some trace) tv _ (var_frame_refl _))
      as (tv3 & Hreset & Hb & _).
    eexists _, _, (mkContext tv3 nv). split_and!; try reflexivity.
    + unfold reset_current_trace, on_trace_var. simpl in *. by rewrite Hreset.
    + done.
    + unfold get_current_trace, on_trace_var, ContextVar.get. simpl.
      by rewrite Hb.
  - intros node.
    destruct (set_reset_frame node nv _ (var_frame_refl _))
      as (nv3 & Hreset & Hb & _).
    eexists _, _, (mkContext tv nv3). split_and!; try reflexivity.
    + unfold reset_current_node, on_node_var. simpl in *. by rewrite Hreset.
    + done.
    + unfold get_current_node, on_node_var, ContextVar.get. simpl.
      by rewrite Hb.
  - intros s. destruct (run_scope_frame s (mkContext tv nv))
      as ([tv' nv'] & Hrun & (Hbt & _) & (Hbn & _)).
    exists (mkContext tv' nv'). simpl in *. split_and!; try done.
    + unfold get_current_trace, on_trace_var, ContextVar.get. simpl.
      by rewrite Hbt.
    + unfold get_current_node, on_node_var, ContextVar.get. simpl.
      by rewrite Hbn.
Qed.

(** ** JSON codec *)

Lemma PyObj_size_list_elem (l : list PyObj) v :
  v ∈ l → (PyObj_size v ≤ foldr (λ x n, PyObj_size x + n) 0 l)%nat.
Proof.
  induction 1 as [|? ? ? _ IH]; simpl; [lia|]. etrans; [apply IH|lia].
Qed.

Lemma PyObj_size_dict_elem (d : gmap string PyObj) k v :
  d !! k = Some v →
  (PyObj_size v ≤ map_fold (λ _ x n, PyObj_size x + n) 0 d)%nat.
Proof.
  revert k v. induction d as [|i x m Hi Hfold IH] using map_first_key_ind;
    intros k v.
  - by rewrite lookup_empty.
  - rewrite map_fold_insert_first_key by done.
    rewrite lookup_insert. case_decide; intros ?; simplify_eq; [lia|].
    etrans; [by eapply IH|]. lia.
Qed.

(** Induction on payload values, through lists and dictionaries. *)
Lemma PyObj_ind' (P : PyObj → Prop) :
  P PyNone → (∀ b, P (PyBool b)) → (∀ z, P (PyInt z)) →
  (∀ q, P (PyFloat q)) → (∀ s, P (PyStr s)) →
  (∀ l, Forall P l → P (PyList l)) →
  (∀ l, Forall P l → P (PyTuple l)) →
  (∀ d, map_Forall (λ _, P) d → P (PyDict d)) →
  ∀ v, P v.
Proof.
  intros HN HB HI HF HS HL HT HD v.
  remember (PyObj_size v) as n eqn:Hn. revert v Hn.
  induction (lt_wf n) as [n _ IH]. intros v ->.
  destruct v as [|b|z|q|s|l|l|d]; auto.
  - apply HL, Forall_forall. intros x Hx. eapply IH; [|done].
    apply PyObj_size_list_elem in Hx. simpl. lia.
  - apply HT, Forall_forall. intros x Hx. eapply IH; [|done].
    apply PyObj_size_list_elem in Hx. simpl. lia.
  - apply HD. intros k x Hx. eapply IH; [|done].
    apply PyObj_size_dict_elem in Hx. simpl. lia.
Qed.

Lemma json_native_dict_spec (d : gmap string PyObj) :
  json_native_dict d = true ↔ map_Forall (λ _ x, json_native x = true) d.
Proof.
  unfold json_native_dict. simpl.
  induction d as [|i x m Hi Hfold IH] using map_first_key_ind.
  - rewrite map_fold_empty. split; [intros _; apply map_Forall_empty|done].
  - rewrite map_fold_insert_first_key by done.
    rewrite map_Forall_insert by done. rewrite andb_true_iff. by rewrite IH.
Qed.

(** Reading back what was written gives the value itself for JSON-native
    values. *)
Lemma from_json_to_json v : json_native v = true → from_json (to_json v) = v.
Proof.
  induction v as [|b|z|q|s|l IH|l IH|d IH] using PyObj_ind'; try done.
  - simpl. rewrite forallb_forall. intros Hl. f_equal.
    rewrite map_map. rewrite <- (map_id l) at 2. apply map_ext_in.
    intros x Hx. rewrite Forall_forall in IH.
    apply IH; [by apply list_elem_of_In|by apply Hl].
  - intros Hd. apply (json_native_dict_spec d) in Hd. simpl. f_equal.
    rewrite <- map_fmap_compose. rewrite <- (map_fmap_id d) at 2.
    apply map_fmap_ext. intros k x Hx. simpl. apply (IH k x Hx), (Hd k x Hx).
Qed.

Lemma sequence_map_returns {A} (m : gmap string (outcome A)) (r : gmap string A) :
  (∀ k, m !! k = Returns <$> r !! k) → sequence_map m = Returns r.
Proof.
  intros Hm. unfold sequence_map.
  assert (omap raised m = ∅) as ->.
  { apply map_eq. intros k. rewrite lookup_omap, Hm, lookup_empty.
    by destruct (r !! k). }
  rewrite map_to_list_empty. f_equal. apply map_eq. intros k.
  rewrite lookup_omap, Hm. by destruct (r !! k).
Qed.

Lemma validate_dict_dump {A} (validate : string → json → outcome A)
    (dump : A → json) (d : gmap string A) :
  (∀ k a, d !! k = Some a → validate k (dump a) = Returns a) →
  validate_dict validate (JObj (dump <$> d)) = Returns d.
Proof.
  intros Hd. simpl. apply sequence_map_returns. intros k.
  rewrite map_lookup_imap, lookup_fmap.
  destruct (d !! k) as [a|] eqn:Hk; simpl; [|done]. by rewrite (Hd k a Hk).
Qed.

Lemma validate_list_dump {A} (validate : json → outcome A) (dump : A → json)
    (l : list A) :
  Forall (λ a, validate (dump a) = Returns a) l →
  validate_list validate (JArr (map dump l)) = Returns l.
Proof.
  simpl. induction 1 as [|a l Ha _ IH]; [done|]. simpl.
  rewrite Ha. simpl. by rewrite IH.
Qed.

Lemma validate_payload_dump (d : gmap string PyObj) :
  json_native_dict d = true →
  validate_payload (JObj (to_json <$> d)) = Returns d.
Proof.
  intros Hd. apply json_native_dict_spec in Hd.
  apply validate_dict_dump. intros k v Hk. unfold validate_object.
  by rewrite from_json_to_json by apply (Hd k v Hk).
Qed.

Lemma validate_NodeStatus_dump s :
  validate_NodeStatus (JStr (NodeStatus_value s)) = Returns s.
Proof. by destruct s. Qed.

Lemma validate_EdgeType_dump t :
  validate_EdgeType (JStr (EdgeType_value t)) = Returns t.
Proof. by destruct t. Qed.

Lemma validate_optional_str_dump (o : option string) :
  validate_optional validate_str (json_of_option JStr o) = Returns o.
Proof. by destruct o. Qed.

Lemma validate_strs_dump (l : list string) :
  validate_list validate_str (JArr (map JStr l)) = Returns l.
Proof. apply validate_list_dump, Forall_forall. done. Qed.

Lemma field_present {A} (o : gmap string json) key (validate : json → outcome A)
    default j a :
  o !! key = Some j → validate j = Returns a →
  field o key validate default = Returns a.
Proof. unfold field. by intros -> ->. Qed.

(** One step of a model validator: the field is in the document and its
    validator returns. *)
Ltac field_step key Hfield :=
  erewrite (field_present _ key); [|reflexivity|apply Hfield];
  change (@mbind outcome _ ?A ?B ?k (Returns ?a)) with (k a); cbv beta.

Lemma check_edge_references_returns ns es :
  check_edge_references ns es = Returns tt ↔
  Forall (λ e, is_Some (ns !! source_id e) ∧ is_Some (ns !! target_id e)) es.
Proof.
  induction es as [|e es IH]; simpl; [done|]. rewrite Forall_cons.
  destruct (contains ns (source_id e)) eqn:Hs; simpl.
  - destruct (contains ns (target_id e)) eqn:Ht; simpl.
    + apply contains_true in Hs, Ht. rewrite IH. naive_solver.
    + apply contains_false in Ht. split; [done|].
      intros [[_ [? Hx]] _]. congruence.
  - apply contains_false in Hs. split; [done|].
    intros [[[? Hx] _] _]. congruence.
Qed.

Lemma check_edge_references_raises ns es :
  Exists (dangling ns) es →
  ∃ i e,
    (check_edge_references ns es
       = Raises (Exc ValueError ("Edge source_id not found in nodes: " +:+ i))
     ∨ check_edge_references ns es
       = Raises (Exc ValueError ("Edge target_id not found in nodes: " +:+ i)))
    ∧ ns !! i = None ∧ e ∈ es ∧ (i = source_id e ∨ i = target_id e).
Proof.
  induction es as [|e es IH]; [by intros ?%Exists_nil|].
  intros Hex. simpl.
  destruct (contains ns (source_id e)) eqn:Hs; simpl.
  - destruct (contains ns (target_id e)) eqn:Ht; simpl.
    + apply contains_true in Hs, Ht. apply Exists_cons in Hex as [Hd|Hex].
      * destruct Hs as [? Hs], Ht as [? Ht], Hd; congruence.
      * destruct (IH Hex) as (i & e' & Hr & Hi & He' & Hie).
        exists i, e'. split_and!; [done|done|by right|done].
    + apply contains_false in Ht. exists (target_id e), e.
      split_and!; [by right|done|by left|by right].
  - apply contains_false in Hs. exists (source_id e), e.
    split_and!; [by left|done|by left|by left].
Qed.

Lemma validate_edge_references_returns self :
  edges_resolved self →
  as_validation_error (validate_edge_references self) = Returns self.
Proof.
  intros Hes. apply check_edge_references_returns in Hes.
  unfold validate_edge_references. by rewrite Hes.
Qed.

Lemma validate_edge_references_inv self g :
  as_validation_error (validate_edge_references self) = Returns g →
  g = self ∧ edges_resolved self.
Proof.
  unfold validate_edge_references.
  destruct (check_edge_references (nodes self) (edges self)) as [[]|e] eqn:Hc.
  - intros [= <-]. split; [done|]. by apply check_edge_references_returns.
  - simpl. destruct e as [[] ?]; discriminate.
Qed.

Lemma validate_edge_references_raises self :
  Exists (dangling (nodes self)) (edges self) →
  ∃ i e x,
    as_validation_error (validate_edge_references self) = Raises x ∧
    names_missing_id x i ∧ nodes self !! i = None ∧ e ∈ edges self ∧
    (i = source_id e ∨ i = target_id e).
Proof.
  intros Hex.
  destruct (check_edge_references_raises _ _ Hex)
    as (i & e & [Hr|Hr] & Hi & He & Hie);
    exists i, e; unfold validate_edge_references; rewrite Hr; simpl;
    eexists; (split; [reflexivity|]); split_and!; try done;
    split; [done|simpl; auto| done |simpl; auto].
Qed.

Section codec_roundtrip.

Variable isoformat : datetime → string.
Variable fromisoformat : string → option datetime.
Variable uuid4_hex : string → string.

Lemma validate_optional_datetime_dump (o : option datetime) :
  (∀ d, o = Some d → fromisoformat (isoformat d) = Some d) →
  validate_optional (validate_datetime fromisoformat)
    (json_of_option (json_of_datetime isoformat) o) = Returns o.
Proof.
  destruct o as [d|]; [|done]. intros Hd. simpl. by rewrite (Hd d eq_refl).
Qed.

Lemma Node_validate_dump key (n : Node) :
  json_native_node n = true →
  (∀ d, start_time n = Some d → fromisoformat (isoformat d) = Some d) →
  (∀ d, end_time n = Some d → fromisoformat (isoformat d) = Some d) →
  Node_validate fromisoformat uuid4_hex key (Node_dump isoformat n) = Returns n.
Proof.
  unfold json_native_node. rewrite !andb_true_iff. intros [[Hi Ho] Hm] Hs He.
  unfold Node_validate, Node_dump.
  field_step "id" (eq_refl (Returns (id n))).
  field_step "sequence_number" (eq_refl (Returns (sequence_number n))).
  field_step "name" (eq_refl (Returns (name n))).
  field_step "node_type" (eq_refl (Returns (node_type n))).
  field_step "status" (validate_NodeStatus_dump (status n)).
  field_step "parent_id" (validate_optional_str_dump (parent_id n)).
  field_step "depth" (eq_refl (Returns (depth n))).
  field_step "start_time" (validate_optional_datetime_dump (start_time n) Hs).
  field_step "end_time" (validate_optional_datetime_dump (end_time n) He).
  field_step "input_data" (validate_payload_dump (input_data n) Hi).
  field_step "output_data" (validate_payload_dump (output_data n) Ho).
  field_step "annotations" (validate_strs_dump (annotations n)).
  field_step "metadata" (validate_payload_dump (metadata n) Hm).
  field_step "error" (validate_optional_str_dump (error n)).
  field_step "error_type" (validate_optional_str_dump (error_type n)).
  field_step "error_traceback" (validate_optional_str_dump (error_traceback n)).
  by destruct n.
Qed.

Lemma Edge_validate_dump (e : Edge) :
  json_native_dict (edge_metadata e) = true →
  Edge_validate (Edge_dump e) = Returns e.
Proof.
  intros Hm. unfold Edge_validate, Edge_dump.
  field_step "source_id" (eq_refl (Returns (source_id e))).
  field_step "target_id" (eq_refl (Returns (target_id e))).
  field_step "edge_type" (validate_EdgeType_dump (edge_type e)).
  field_step "label" (eq_refl (Returns (label e))).
  field_step "metadata" (validate_payload_dump (edge_metadata e) Hm).
  by destruct e.
Qed.

End codec_roundtrip.

Lemma json_native_trace_spec t :
  json_native_trace t = true →
  json_native_dict (trace_metadata t) = true ∧
  (∀ k n, nodes t !! k = Some n → json_native_node n = true) ∧
  Forall (λ e, json_native_dict (edge_metadata e) = true) (edges t).
Proof.
  unfold json_native_trace. rewrite !andb_true_iff, !forallb_forall.
  intros [[Hm Hn] He]. split_and!; [done| |].
  - intros k n Hk. apply (Hn (k, n)).
    by apply list_elem_of_In, elem_of_map_to_list.
  - apply Forall_forall. intros e Hin. by apply He, list_elem_of_In.
Qed.

Lemma datetimes_of_node t k n d :
  nodes t !! k = Some n → start_time n = Some d ∨ end_time n = Some d →
  d ∈ datetimes t.
Proof.
  intros Hk Hd. unfold datetimes. rewrite !elem_of_app. right; right.
  apply list_elem_of_In, in_concat.
  exists (option_list (start_time n) ++ option_list (end_time n)). split.
  - apply in_map_iff. exists (k, n). split; [done|].
    by apply list_elem_of_In, elem_of_map_to_list.
  - apply list_elem_of_In, elem_of_app.
    destruct Hd as [-> | ->]; [left|right]; apply list_elem_of_singleton; done.
Qed.

Lemma datetimes_of_trace t d :
  trace_start_time t = Some d ∨ trace_end_time t = Some d → d ∈ datetimes t.
Proof.
  unfold datetimes. rewrite !elem_of_app.
  intros [-> | ->]; [left|right; left]; by apply list_elem_of_singleton.
Qed.

Section trace_roundtrip.

Variable isoformat : datetime → string.
Variable fromisoformat : string → option datetime.
Variable uuid4_hex : string → string.

(** What reading back a written trace builds before the after-validator
    runs: the trace itself, its counter at 0. *)
Lemma TraceGraph_fields_dump (t : TraceGraph) :
  json_native_trace t = true →
  (∀ d, d ∈ datetimes t → fromisoformat (isoformat d) = Some d) →
  TraceGraph_fields fromisoformat uuid4_hex (TraceGraph_dump isoformat t)
    = Returns (set_counter 0 t).
Proof.
  intros (Hm & Hn & He)%json_native_trace_spec Hd.
  unfold TraceGraph_fields, TraceGraph_dump.
  field_step "schema_version" (eq_refl (Returns (schema_version t))).
  field_step "trace_id" (eq_refl (Returns (trace_id t))).
  field_step "name" (eq_refl (Returns (trace_name t))).
  field_step "nodes"
    (validate_dict_dump (Node_validate fromisoformat uuid4_hex)
       (Node_dump isoformat) (nodes t)).
  2:{ intros k n Hk. apply Node_validate_dump; [by eapply Hn|..];
      intros d Hdn; eapply Hd, datetimes_of_node; eauto. }
  field_step "edges"
    (validate_list_dump (Edge_validate) (Edge_dump) (edges t)).
  2:{ eapply Forall_impl; [exact He|]. intros e. apply Edge_validate_dump. }
  field_step "start_time"
    (validate_optional_datetime_dump isoformat fromisoformat
       (trace_start_time t)).
  2:{ intros d Hdt. apply Hd, datetimes_of_trace. by left. }
  field_step "end_time"
    (validate_optional_datetime_dump isoformat fromisoformat
       (trace_end_time t)).
  2:{ intros d Hdt. apply Hd, datetimes_of_trace. by right. }
  field_step "metadata" (validate_payload_dump (trace_metadata t) Hm).
  done.
Qed.

Lemma trace_from_json_to_json (t : TraceGraph) indent :
  edges_resolved t →
  json_native_trace t = true →
  (∀ d, d ∈ datetimes t → fromisoformat (isoformat d) = Some d) →
  trace_from_json fromisoformat uuid4_hex (trace_to_json isoformat t indent)
    = Returns (set_counter 0 t).
Proof.
  intros Hes Hnat Hd. unfold trace_from_json, trace_to_json, TraceGraph_validate.
  rewrite TraceGraph_fields_dump by done.
  change (as_validation_error (validate_edge_references (set_counter 0 t))
          = Returns (set_counter 0 t)).
  by apply validate_edge_references_returns.
Qed.

Lemma TraceGraph_fields_counter payload self :
  TraceGraph_fields fromisoformat uuid4_hex payload = Returns self →
  _sequence_counter self = 0.
Proof.
  unfold TraceGraph_fields. destruct payload as [| | | | | |o]; try done.
  repeat (match goal with
          | |- context [field ?o ?k ?v ?d] => destruct (field o k v d); [|done]
          end;
          change (@mbind outcome _ ?A ?B ?k (Returns ?a)) with (k a);
          cbv beta).
  by intros [= <-].
Qed.

Lemma trace_from_json_inv payload g :
  trace_from_json fromisoformat uuid4_hex payload = Returns g →
  TraceGraph_fields fromisoformat uuid4_hex payload = Returns g ∧
  edges_resolved g ∧ _sequence_counter g = 0.
Proof.
  unfold trace_from_json, TraceGraph_validate.
  destruct (TraceGraph_fields fromisoformat uuid4_hex payload)
    as [self|e] eqn:Hf; [|done].
  change (as_validation_error (validate_edge_references self) = Returns g →
          Returns self = Returns g ∧ edges_resolved g ∧ _sequence_counter g = 0).
  intros [-> Hes]%validate_edge_references_inv.
  split_and!; [done|done|by eapply TraceGraph_fields_counter].
Qed.

End trace_roundtrip.

Lemma decimal_roundtrip d :
  decimal_fromisoformat (decimal_isoformat d) = Some d.
Proof.
  unfold decimal_fromisoformat, decimal_isoformat.
  rewrite NilEmpty.isi. simpl. rewrite DecimalZ.of_to. by destruct d.
Qed.

Lemma schema_equal_set_counter c t : schema_equal (set_counter c t) t.
Proof. by repeat split. Qed.


Lemma sample_edges_resolved : edges_resolved rich_trace.
Proof. repeat constructor; by eexists. Defined.



(** C3. A trace built from parts of which an edge dangles is not built:
    the constructor raises a validation error that names a missing endpoint
    id of one of the edges; so does reading a JSON document whose fields
    validate to such parts.  What either of them returns has no dangling
    edge. *)
Theorem dangling_edge_fails_load
    (fromisoformat : string → option datetime) (uuid4_hex : string → string) :
  (∀ sv ti nm ns es st en md,
     (Exists (dangling ns) es →
      ∃ i e x, TraceGraph_init sv ti nm ns es st en md = Raises x ∧
               names_missing_id x i ∧ ns !! i = None ∧ e ∈ es ∧
               (i = source_id e ∨ i = target_id e)) ∧
     (∀ g, TraceGraph_init sv ti nm ns es st en md = Returns g →
           edges_resolved g)) ∧
  (∀ payload,
     (∀ self, TraceGraph_fields fromisoformat uuid4_hex payload = Returns self →
        Exists (dangling (nodes self)) (edges self) →
        ∃ i e x, trace_from_json fromisoformat uuid4_hex payload = Raises x ∧
                 names_missing_id x i ∧ nodes self !! i = None ∧
                 e ∈ edges self ∧ (i = source_id e ∨ i = target_id e)) ∧
     (∀ g, trace_from_json fromisoformat uuid4_hex payload = Returns g →
           edges_resolved g)).
Proof.
  split.
  - intros sv ti nm ns es st en md. split.
    + intros Hex. unfold TraceGraph_init.
      by apply (validate_edge_references_raises
                  (mkTraceGraph sv ti nm ns es st en md 0)).
    + intros g Hg. unfold TraceGraph_init in Hg.
      by apply validate_edge_references_inv in Hg as [-> ?].
  - intros payload. split.
    + intros self Hf Hex. unfold trace_from_json, TraceGraph_validate.
      rewrite Hf. by apply validate_edge_references_raises.
    + intros g Hg. by apply trace_from_json_inv in Hg as (_ & ? & _).
Qed.

Lemma dangling_edge_fails_load_witness :
  (∃ i e x,
     TraceGraph_init "0.1.0" "t3" "" (nodes sample_trace) dangling_edges
       None None ∅ = Raises x ∧
     names_missing_id x i ∧ nodes sample_trace !! i = None ∧
     e ∈ dangling_edges ∧ (i = source_id e ∨ i = target_id e)) ∧
  TraceGraph_init "0.1.0" "t3" "" (nodes sample_trace) dangling_edges
    None None ∅
    = Raises (Exc ValidationError
                "Value error, Edge target_id not found in nodes: zz") ∧
  trace_from_json decimal_fromisoformat counting_uuid4_hex
    (trace_to_json decimal_isoformat
       (set_edges dangling_edges sample_trace) None)
    = Raises (Exc ValidationError
                "Value error, Edge target_id not found in nodes: zz").
Proof.
  split; [|split; vm_compute; reflexivity].
  apply (dangling_edge_fails_load decimal_fromisoformat counting_uuid4_hex).
  apply Exists_cons_tl, Exists_cons_hd. right. reflexivity.
Defined.

(** C9. The counter is not written and not read: whatever the document,
    the trace read from it has its counter at 0 and its first
    [next_sequence_number] returns 0; for a written trace that is read back,
    the nodes are those of the original, sequence numbers included, so the
    number handed out can be one a node already carries. *)
Theorem decoded_counter_restarts
    (fromisoformat : string → option datetime) (uuid4_hex : string → string) :
  (∀ payload g,
     trace_from_json fromisoformat uuid4_hex payload = Returns g →
     _sequence_counter g = 0 ∧ (next_sequence_number g).1 = Returns 0) ∧
  (∀ isoformat T indent,
     edges_resolved T → json_native_trace T = true →
     (∀ d, d ∈ datetimes T → fromisoformat (isoformat d) = Some d) →
     ∃ T', trace_from_json fromisoformat uuid4_hex
             (trace_to_json isoformat T indent) = Returns T' ∧
           nodes T' = nodes T ∧
           (next_sequence_number T').1 = Returns 0 ∧
           (∀ k n, nodes T !! k = Some n → sequence_number n = 0 →
                   ∃ n', nodes T' !! k = Some n' ∧
                         Returns (sequence_number n')
                         = (next_sequence_number T').1)).
Proof.
  split.
  - intros payload g (_ & _ & Hc)%trace_from_json_inv.
    rewrite next_sequence_number_unfold. simpl. by rewrite Hc.
  - intros isoformat T indent Hes Hnat Hd. exists (set_counter 0 T).
    split; [by apply trace_from_json_to_json|].
    split_and!; [done|done|]. intros k n Hk Hz. exists n. split; [done|].
    rewrite next_sequence_number_unfold. simpl. by rewrite Hz.
Qed.

Lemma decoded_counter_restarts_witness :
  _sequence_counter rich_trace = 2 ∧
  ∃ T', trace_from_json decimal_fromisoformat counting_uuid4_hex
          (trace_to_json decimal_isoformat rich_trace (Some 2)) = Returns T' ∧
        nodes T' = nodes rich_trace ∧
        (next_sequence_number T').1 = Returns 0 ∧
        (∀ k n, nodes rich_trace !! k = Some n → sequence_number n = 0 →
                ∃ n', nodes T' !! k = Some n' ∧
                      Returns (sequence_number n')
                      = (next_sequence_number T').1).
Proof.
  split; [reflexivity|].
  apply (decoded_counter_restarts decimal_fromisoformat counting_uuid4_hex).
  - exact sample_edges_resolved.
  - vm_compute. reflexivity.
  - intros d _. apply decimal_roundtrip.
Defined.

(** ** Concurrent callers of one trace *)

(** Three statements of one thread in a row are the whole call. *)
Lemma thread_runs_call op self :
  let s1 := thread_step (mkThread op Start) self in
  let s2 := thread_step s1.1 s1.2 in
  thread_step s2.1 s2.2
    = (mkThread op (Done (run_call op self).1), (run_call op self).2).
Proof.
  destruct op as [node|edge|]; simpl; [done| |done].
  unfold mbind, Py_bind. rewrite add_edge_unfold. unfold thread_step. simpl.
  destruct (contains (nodes self) (source_id edge)); simpl; [|done].
  destruct (contains (nodes self) (target_id edge)); simpl; done.
Qed.

Lemma schedule_step_middle k pre th post self :
  length pre = k →
  schedule_step k (mkShared self (pre ++ th :: post))
    = mkShared (thread_step th self).2 (pre ++ (thread_step th self).1 :: post).
Proof.
  intros <-. unfold schedule_step. simpl.
  rewrite list_lookup_middle by done.
  destruct (thread_step th self) as [th' self']. simpl. f_equal.
  by rewrite insert_app_r_alt, Nat.sub_diag by lia.
Qed.

Lemma serial_schedule_runs ops : ∀ k pre self,
  length pre = k →
  run_schedule (concat (map (λ i, [i; i; i]) (seq k (length ops))))
    (mkShared self (pre ++ map (λ op, mkThread op Start) ops))
  = mkShared (serial_object ops self) (pre ++ serial_results ops self).
Proof.
  induction ops as [|op ops IH]; intros k pre self Hk; [done|].
  simpl. rewrite !schedule_step_middle by done.
  pose proof (thread_runs_call op self) as Hcall. simpl in Hcall.
  rewrite Hcall. simpl.
  rewrite (cons_middle _ pre), (cons_middle _ pre (serial_results _ _)).
  rewrite !app_assoc. apply IH. rewrite length_app. simpl. lia.
Qed.

Lemma serial_allocations n : ∀ self,
  allocated (serial_results (replicate n OpNextSequenceNumber) self)
  = (λ i : nat, _sequence_counter self + Z.of_nat i) <$> seq 0 n.
Proof.
  induction n as [|n IH]; intros self; [done|].
  simpl. unfold allocated in *. simpl. rewrite IH. simpl.
  f_equal; [f_equal; lia|].
  rewrite <- seq_shift, <- list_fmap_compose. apply list_fmap_ext.
  intros _ i _. simpl. lia.
Qed.

Lemma thread_step_grows th self :
  grows self (thread_step th self).2 ∧
  call (thread_step th self).1 = call th ∧
  (∀ r, at_place (thread_step th self).1 = Done (Returns r) →
        at_place th = Done (Returns r) ∨ inserted th (thread_step th self).2).
Proof.
  assert (grows self self) as Hrefl by done.
  destruct th as [[node|edge|] pl]; unfold thread_step, inserted; simpl.
  - destruct pl; simpl; try (split_and!; [done|done|by left]).
    split_and!; [split; [done|]|done|].
    + intros k Hk. simpl. rewrite lookup_insert. by case_decide.
    + intros r _. right. simpl. by rewrite lookup_insert_eq.
  - destruct pl; simpl; try (split_and!; [done|done|by left]).
    + destruct (contains (nodes self) (source_id edge)); simpl;
        split_and!; try done.
    + destruct (contains (nodes self) (target_id edge)); simpl;
        split_and!; try done.
    + split_and!; [split; [|done]|done|].
      * intros e He. simpl. apply elem_of_app. by left.
      * intros r _. right. simpl. apply elem_of_app. right. by left.
  - destruct pl; simpl; split_and!; try done; try (by left); by right.
Qed.

Lemma inserted_grows th self self' :
  grows self self' → inserted th self → inserted th self'.
Proof. intros [He Hn]. unfold inserted. destruct (call th); auto. Qed.

Lemma schedule_step_keeps i c :
  insertions_kept c → insertions_kept (schedule_step i c).
Proof.
  intros Hc. unfold schedule_step.
  destruct (threads c !! i) as [th|] eqn:Hi; [|done].
  pose proof (thread_step_grows th (object c)) as (Hg & Hcall & Hdone).
  destruct (thread_step th (object c)) as [th' self'] eqn:Hs. simpl in *.
  intros j thj r. simpl. destruct (decide (i = j)) as [<-|Hne].
  - rewrite list_lookup_insert_eq by (by eapply lookup_lt_Some).
    intros [= <-] Hr. destruct (Hdone r Hr) as [Hold|Hnew].
    + unfold inserted. rewrite Hcall.
      eapply (inserted_grows th); [done|]. by eapply Hc.
    + unfold inserted in *. by rewrite Hcall.
  - rewrite list_lookup_insert_ne by done. intros Hj Hr.
    eapply inserted_grows; [done|]. by eapply Hc.
Qed.

Lemma run_schedule_keeps schedule c :
  insertions_kept c → insertions_kept (run_schedule schedule c).
Proof.
  revert c. induction schedule as [|i schedule IH]; intros c Hc; [done|].
  simpl. by apply IH, schedule_step_keeps.
Qed.

(** C5, as the code has it.  No method of [TraceGraph] takes a lock.
    When the calls of the threads run one after the other, the outcome is
    that of the calls made in sequence, and [n] allocations return [n]
    distinct, increasing numbers.  Under every interleaving of the
    statements, a finished [add_node] or [add_edge] has its node or edge in
    the graph: each inserts with one statement. *)
Theorem unlocked_calls (ops : list graph_op) (self : TraceGraph) :
  run_schedule (serial_schedule (length ops)) (spawn ops self)
    = mkShared (serial_object ops self) (serial_results ops self) ∧
  (∀ n, allocated (threads (run_schedule (serial_schedule n)
                     (spawn (replicate n OpNextSequenceNumber) self)))
        = (λ i : nat, _sequence_counter self + Z.of_nat i) <$> seq 0 n) ∧
  (∀ schedule i th r,
     threads (run_schedule schedule (spawn ops self)) !! i = Some th →
     at_place th = Done (Returns r) →
     match call th with
     | OpAddEdge edge => edge ∈ edges (object (run_schedule schedule (spawn ops self)))
     | OpAddNode node =>
         is_Some (nodes (object (run_schedule schedule (spawn ops self)))
                    !! id node)
     | OpNextSequenceNumber => True
     end).
Proof.
  split_and!.
  - apply (serial_schedule_runs ops 0%nat [] self eq_refl).
  - intros n. unfold serial_schedule, spawn.
    pose proof (serial_schedule_runs (replicate n OpNextSequenceNumber)
                  0%nat [] self eq_refl) as Hrun.
    rewrite length_replicate in Hrun. simpl in Hrun. rewrite Hrun. simpl.
    apply serial_allocations.
  - intros schedule i th r Hi Hr.
    eapply (run_schedule_keeps schedule (spawn ops self)); [|done..].
    intros j thj rj Hj Hrj. unfold spawn in Hj. simpl in Hj.
    rewrite list_lookup_fmap in Hj.
    destruct (ops !! j); simplify_eq/=.
Qed.

Lemma unlocked_calls_witness :
  mkEdge "a" "b" DATA_FLOW "" ∅
    ∈ edges (object (run_schedule [0; 1; 0; 1; 0; 1]%nat
                       (spawn [OpAddEdge (mkEdge "a" "b" DATA_FLOW "" ∅);
                               OpNextSequenceNumber] sample_trace))) ∧
  allocated (threads (run_schedule (serial_schedule 3)
               (spawn (replicate 3 OpNextSequenceNumber) sample_trace)))
    = [0; 1; 2].
Proof.
  pose proof (unlocked_calls [OpAddEdge (mkEdge "a" "b" DATA_FLOW "" ∅);
                              OpNextSequenceNumber] sample_trace)
    as (_ & Hserial & Hkept).
  split.
  - apply (Hkept [0; 1; 0; 1; 0; 1]%nat 0%nat
             (mkThread (OpAddEdge (mkEdge "a" "b" DATA_FLOW "" ∅))
                (Done (Returns None))) None); reflexivity.
  - apply (Hserial 3%nat).
Defined.

(** C5 as stated fails: two threads that interleave the two statements of
    [next_sequence_number] on a new trace both return 0, while the counter
    ends at 2. *)
Lemma interleaved_allocations_collide :
  allocated (threads (run_schedule [0; 1; 0; 1]%nat
               (spawn [OpNextSequenceNumber; OpNextSequenceNumber]
                  (TraceGraph_default "t0")))) = [0; 0] ∧
  _sequence_counter (object (run_schedule [0; 1; 0; 1]%nat
                       (spawn [OpNextSequenceNumber; OpNextSequenceNumber]
                          (TraceGraph_default "t0")))) = 2.
Proof. split; reflexivity. Qed.

(** ** HTTP instrumentation *)

Section instrumentation_properties.
Context {R : Runtime}.

Lemma get_current_trace_in_world (w : World Env) :
  in_context get_current_trace w = (Returns (current_trace_of w), w).
Proof. by destruct w as [[tv nv] log env]. Qed.

Lemma search_patterns_skips_invalid url pattern rest exc :
  re_search pattern url = Raises exc → exc_class exc = ReError →
  search_patterns url (pattern :: rest) = search_patterns url rest.
Proof. intros Hr Hc. simpl. rewrite Hr. by rewrite decide_True. Qed.

Lemma search_patterns_returns url patterns :
  (∀ pattern exc, pattern ∈ patterns →
     re_search pattern url = Raises exc → exc_class exc = ReError) →
  search_patterns url patterns = Returns (existsb (matches url) patterns).
Proof.
  induction patterns as [|pattern rest IH]; intros Hre; [done|].
  simpl. unfold matches at 1.
  destruct (re_search pattern url) as [[]|exc] eqn:Hs; simpl.
  - done.
  - apply IH. intros p e Hp. apply Hre. by right.
  - rewrite decide_True by (eapply Hre; [by left|done]).
    apply IH. intros p e Hp. apply Hre. by right.
Qed.

Lemma _should_skip_returns url exclude_urls :
  (∀ pattern exc, re_search pattern url = Raises exc →
     exc_class exc = ReError) →
  _should_skip url exclude_urls
    = Returns (existsb (matches url) (default [] exclude_urls)).
Proof.
  intros Hre. destruct exclude_urls as [[|pattern rest]|]; try done.
  apply search_patterns_returns. eauto.
Qed.

Lemma _apply_url_filter_returns url url_filter :
  _apply_url_filter url url_filter =
    Returns match url_filter with
            | Some f => match f url with Returns v => v | Raises _ => url end
            | None => url
            end.
Proof. destruct url_filter as [f|]; [|done]. simpl. by destruct (f url). Qed.


Lemma record_http_response_returns span status duration error (w : World Env) :
  ∃ w', record_http_response span status duration error w = (Returns tt, w').
Proof.
  unfold record_http_response, try_except.
  match goal with |- context [match ?m w with _ => _ end] =>
    destruct (m w) as [[[]|exc] w1] end; simpl; eauto.
Qed.


End instrumentation_properties.

Lemma failing_recorder_re_error pattern u exc :
  re_search (Runtime := failing_recorder) pattern u = Raises exc →
  exc_class exc = ReError.
Proof. simpl. case_decide; [by intros [= <-]|done]. Defined.



(** * Further properties of the code *)

(** ** Graph model: what runs of operations keep *)

Lemma run_op_edges op t :
  edges (run_op op t).2 = edges t ∨
  ∃ edge, op = OpAddEdge edge ∧ edges (run_op op t).2 = edges t ++ [edge] ∧
          is_Some (nodes t !! source_id edge) ∧
          is_Some (nodes t !! target_id edge).
Proof.
  destruct op as [node|edge|]; [by left| |by left].
  simpl run_op. rewrite add_edge_unfold.
  destruct (contains (nodes t) (source_id edge)) eqn:Hs; simpl; [|by left].
  destruct (contains (nodes t) (target_id edge)) eqn:Ht; simpl; [|by left].
  right. exists edge. by rewrite <- !contains_true.
Qed.

Lemma run_op_nodes_grow op t k :
  is_Some (nodes t !! k) → is_Some (nodes (run_op op t).2 !! k).
Proof.
  rewrite run_op_nodes. destruct op as [node|edge|]; try done.
  rewrite lookup_insert. by case_decide.
Qed.

Lemma run_op_keeps_edges_resolved op t :
  edges_resolved t → edges_resolved (run_op op t).2.
Proof.
  unfold edges_resolved. intros Ht.
  assert (Forall (λ e, is_Some (nodes (run_op op t).2 !! source_id e) ∧
                       is_Some (nodes (run_op op t).2 !! target_id e))
            (edges t)) as Hold.
  { eapply Forall_impl; [exact Ht|]. intros e [? ?].
    split; by apply run_op_nodes_grow. }
  destruct (run_op_edges op t) as [->|(edge & -> & -> & Hs & Ht')]; [done|].
  apply Forall_app. split; [done|]. constructor; [|done].
  split; by apply (run_op_nodes_grow (OpAddEdge edge)).
Qed.

Lemma run_ops_keep_edges_resolved ops t :
  edges_resolved t → edges_resolved (run_ops ops t).
Proof.
  revert t. induction ops as [|op ops IH]; intros t Ht; [done|].
  simpl. by apply IH, run_op_keeps_edges_resolved.
Qed.

(** X1. Edges never come to dangle.  Whatever calls of [add_node],
    [add_edge] and [next_sequence_number] follow, failed ones included, a
    graph without dangling edge stays one: the after-validator accepts it at
    any later time, and so does the constructor given its parts. *)
Theorem edges_stay_resolved (ops : list graph_op) (t : TraceGraph) :
  edges_resolved t →
  edges_resolved (run_ops ops t) ∧
  validate_edge_references (run_ops ops t) = Returns (run_ops ops t) ∧
  ∃ g, TraceGraph_init (schema_version (run_ops ops t))
         (trace_id (run_ops ops t)) (trace_name (run_ops ops t))
         (nodes (run_ops ops t)) (edges (run_ops ops t))
         (trace_start_time (run_ops ops t)) (trace_end_time (run_ops ops t))
         (trace_metadata (run_ops ops t)) = Returns g ∧
       schema_equal g (run_ops ops t).
Proof.
  intros Ht. pose proof (run_ops_keep_edges_resolved ops t Ht) as Hres.
  split; [done|]. split.
  - pose proof (validate_edge_references_returns _ Hres) as Hv.
    destruct (validate_edge_references (run_ops ops t)) as [g|[[] ?]];
      simpl in Hv; congruence.
  - exists (set_counter 0 (run_ops ops t)). split; [|by repeat split].
    unfold TraceGraph_init.
    by apply (validate_edge_references_returns (set_counter 0 (run_ops ops t))).
Qed.

Lemma edges_stay_resolved_witness :
  edges_resolved
    (run_ops [OpAddEdge (mkEdge "a" "b" DATA_FLOW "" ∅);
              OpAddEdge (mkEdge "a" "zz" CAUSED_BY "" ∅);
              OpAddNode (sample_node "a" 7 None 0)] sample_trace) ∧
  edges (run_ops [OpAddEdge (mkEdge "a" "b" DATA_FLOW "" ∅);
                  OpAddEdge (mkEdge "a" "zz" CAUSED_BY "" ∅);
                  OpAddNode (sample_node "a" 7 None 0)] sample_trace)
    = [mkEdge "a" "b" DATA_FLOW "" ∅].
Proof.
  split; [|reflexivity].
  apply (edges_stay_resolved
           [OpAddEdge (mkEdge "a" "b" DATA_FLOW "" ∅);
            OpAddEdge (mkEdge "a" "zz" CAUSED_BY "" ∅);
            OpAddNode (sample_node "a" 7 None 0)] sample_trace).
  constructor.
Defined.

Lemma run_ops_nodes ops : ∀ t key,
  nodes (run_ops ops t) !! key =
    match last_added key ops with
    | Some n => Some n
    | None => nodes t !! key
    end.
Proof.
  induction ops as [|op ops IH]; intros t key; [done|].
  simpl. rewrite IH. destruct (last_added key ops) as [n|]; [done|].
  rewrite run_op_nodes. destruct op as [node|edge|]; try done.
  rewrite lookup_insert. by case_decide.
Qed.

(** X2. The nodes after any run of calls: under each key, the node the
    last [add_node] with that id put there (last write wins), else what the
    graph held before; no call removes a key, and a node is stored under its
    own id. *)
Theorem nodes_after_run (ops : list graph_op) (t : TraceGraph) (key : string) :
  nodes (run_ops ops t) !! key =
    match last_added key ops with
    | Some n => Some n
    | None => nodes t !! key
    end ∧
  (is_Some (nodes t !! key) → is_Some (nodes (run_ops ops t) !! key)) ∧
  (∀ n, last_added key ops = Some n → id n = key ∧ OpAddNode n ∈ ops).
Proof.
  split; [apply run_ops_nodes|]. split.
  - rewrite run_ops_nodes. by destruct (last_added key ops).
  - induction ops as [|op ops IH]; intros n; [done|]. simpl.
    destruct (last_added key ops) as [m|].
    + intros [= <-]. destruct (IH m eq_refl) as [? ?]. split; [done|by right].
    + destruct op as [node|edge|]; try done. case_decide; [|done].
      intros [= <-]. split; [done|by left].
Qed.

Lemma nodes_after_run_witness :
  nodes (run_ops [OpAddNode (sample_node "a" 7 None 0);
                  OpAddEdge (mkEdge "a" "zz" CAUSED_BY "" ∅);
                  OpAddNode (sample_node "a" 8 None 0)] sample_trace) !! "a"
    = Some (sample_node "a" 8 None 0) ∧
  is_Some (nodes (run_ops [OpAddNode (sample_node "a" 7 None 0);
                           OpAddEdge (mkEdge "a" "zz" CAUSED_BY "" ∅);
                           OpAddNode (sample_node "a" 8 None 0)] sample_trace)
             !! "b").
Proof.
  pose proof (nodes_after_run [OpAddNode (sample_node "a" 7 None 0);
                               OpAddEdge (mkEdge "a" "zz" CAUSED_BY "" ∅);
                               OpAddNode (sample_node "a" 8 None 0)]
                sample_trace "a") as (Ha & _).
  pose proof (nodes_after_run [OpAddNode (sample_node "a" 7 None 0);
                               OpAddEdge (mkEdge "a" "zz" CAUSED_BY "" ∅);
                               OpAddNode (sample_node "a" 8 None 0)]
                sample_trace "b") as (_ & Hb & _).
  split; [exact Ha|]. apply Hb. by eexists.
Defined.

Lemma run_ops_edges ops : ∀ t,
  edges t `prefix_of` edges (run_ops ops t) ∧
  ∀ e, e ∈ edges (run_ops ops t) → e ∈ edges t ∨ OpAddEdge e ∈ ops.
Proof.
  induction ops as [|op ops IH]; intros t.
  - split; [done|]. intros e He. by left.
  - simpl. destruct (IH (run_op op t).2) as [Hpre Hfrom].
    destruct (run_op_edges op t) as [Heq|(edge & -> & Heq & _)].
    + rewrite Heq in Hpre, Hfrom. split; [done|].
      intros e He. destruct (Hfrom e He) as [?|?]; [by left|right; by right].
    + rewrite Heq in Hpre, Hfrom. split.
      * etrans; [|exact Hpre]. by apply prefix_app_r.
      * intros e He. destruct (Hfrom e He) as [Hin|?]; [|right; by right].
        apply elem_of_app in Hin as [?|Hin]; [by left|].
        apply list_elem_of_singleton in Hin as ->. right. by left.
Qed.

(** X3. Edges are append-only.  After any run of calls the edges the graph
    had are still there, in their order and in front; every other edge was
    handed to an [add_edge] of the run; and an [add_edge] that returns has
    put exactly one more entry in, also when an equal edge was there. *)
Theorem edges_append_only (ops : list graph_op) (t : TraceGraph) :
  edges t `prefix_of` edges (run_ops ops t) ∧
  (∀ e, e ∈ edges (run_ops ops t) → e ∈ edges t ∨ OpAddEdge e ∈ ops) ∧
  (∀ edge, (add_edge edge t).1 = Returns tt →
     length (edges (add_edge edge t).2) = S (length (edges t))).
Proof.
  destruct (run_ops_edges ops t) as [Hpre Hfrom]. split_and!; [done|done|].
  intros edge. rewrite add_edge_unfold.
  destruct (contains (nodes t) (source_id edge)); simpl; [|done].
  destruct (contains (nodes t) (target_id edge)); simpl; [|done].
  intros _. rewrite length_app. simpl. lia.
Qed.

Lemma edges_append_only_witness :
  length (edges (add_edge (mkEdge "a" "b" CAUSED_BY "" ∅)
                   (add_edge (mkEdge "a" "b" CAUSED_BY "" ∅) sample_trace).2).2)
    = 2%nat.
Proof.
  pose proof (edges_append_only []
                (add_edge (mkEdge "a" "b" CAUSED_BY "" ∅) sample_trace).2)
    as (_ & _ & Hlen).
  rewrite (Hlen (mkEdge "a" "b" CAUSED_BY "" ∅)); reflexivity.
Defined.

Lemma run_call_counter op self :
  _sequence_counter (run_call op self).2 =
    if is_allocation op then _sequence_counter self + 1
    else _sequence_counter self.
Proof.
  destruct op as [node|edge|]; try done.
  simpl. unfold mbind, Py_bind. rewrite add_edge_unfold.
  destruct (contains (nodes self) (source_id edge)); simpl; [|done].
  by destruct (contains (nodes self) (target_id edge)).
Qed.

Lemma serial_results_allocated ops : ∀ self,
  allocated (serial_results ops self) =
    (λ i : nat, _sequence_counter self + Z.of_nat i) <$> seq 0 (allocations ops).
Proof.
  unfold allocations.
  induction ops as [|op ops IH]; intros self; [done|].
  simpl serial_results. unfold allocated in *. simpl omap.
  rewrite IH, run_call_counter.
  destruct op as [node|edge|]; simpl; [done|done|].
  f_equal; [lia|].
  rewrite <- seq_shift, <- list_fmap_compose. apply list_fmap_ext.
  intros _ i _. simpl. lia.
Qed.

(** X4. Sequence numbers ignore everything but allocations.  In calls made
    one after the other, the numbers the [next_sequence_number] calls return
    are the counter, the counter plus one, and so on, whatever [add_node] and
    [add_edge] calls, failed ones included, come in between; the counter ends
    higher by the number of allocations. *)
Theorem allocations_are_consecutive (ops : list graph_op) (self : TraceGraph) :
  allocated (serial_results ops self) =
    (λ i : nat, _sequence_counter self + Z.of_nat i)
      <$> seq 0 (allocations ops) ∧
  _sequence_counter (serial_object ops self)
    = _sequence_counter self + Z.of_nat (allocations ops).
Proof.
  split; [apply serial_results_allocated|].
  unfold allocations. revert self.
  induction ops as [|op ops IH]; intros self; [simpl; lia|].
  simpl serial_object. rewrite IH, run_call_counter.
  simpl. destruct (is_allocation op); simpl; lia.
Qed.

Lemma check_edge_references_first ns pre e post :
  Forall (λ e', is_Some (ns !! source_id e') ∧ is_Some (ns !! target_id e'))
    pre →
  dangling ns e →
  check_edge_references ns (pre ++ e :: post) = Raises (first_missing ns e).
Proof.
  intros Hpre Hd. induction Hpre as [|e' pre [Hs Ht] _ IH]; simpl.
  - unfold first_missing.
    destruct (contains ns (source_id e)) eqn:Hcs; simpl; [|done].
    destruct (contains ns (target_id e)) eqn:Hct; simpl; [|done].
    apply contains_true in Hcs, Hct.
    destruct Hcs as [? Hcs], Hct as [? Hct], Hd; congruence.
  - apply contains_true in Hs, Ht. by rewrite Hs, Ht.
Qed.

(** X5. The after-validator stops at the first dangling edge, in the order
    of [edges], and of that edge reports the source when the source is
    missing (also when the target is missing too), else the target; edges
    after it are not looked at.  The constructor raises the same text as a
    validation error. *)
Theorem first_dangling_edge_is_reported
    (self : TraceGraph) (pre post : list Edge) (e : Edge) :
  edges self = pre ++ e :: post →
  Forall (λ e', is_Some (nodes self !! source_id e') ∧
                is_Some (nodes self !! target_id e')) pre →
  dangling (nodes self) e →
  validate_edge_references self = Raises (first_missing (nodes self) e) ∧
  (nodes self !! source_id e = None →
     first_missing (nodes self) e
     = Exc ValueError ("Edge source_id not found in nodes: " +:+ source_id e)) ∧
  (is_Some (nodes self !! source_id e) →
     first_missing (nodes self) e
     = Exc ValueError ("Edge target_id not found in nodes: " +:+ target_id e)) ∧
  as_validation_error (validate_edge_references self)
    = Raises (Exc ValidationError
                ("Value error, " +:+ exc_msg (first_missing (nodes self) e))).
Proof.
  intros Hes Hpre Hd.
  assert (validate_edge_references self
          = Raises (first_missing (nodes self) e)) as Hv.
  { unfold validate_edge_references.
    by rewrite Hes, (check_edge_references_first _ pre e post). }
  split_and!; [done| | |].
  - intros Hs%contains_false. unfold first_missing. by rewrite Hs.
  - intros Hs%contains_true. unfold first_missing. by rewrite Hs.
  - rewrite Hv. unfold first_missing.
    by destruct (contains (nodes self) (source_id e)).
Qed.

Lemma first_dangling_edge_is_reported_witness :
  validate_edge_references
    (set_edges [mkEdge "a" "b" CAUSED_BY "" ∅; mkEdge "yy" "zz" CAUSED_BY "" ∅;
                mkEdge "ww" "a" CAUSED_BY "" ∅] sample_trace)
  = Raises (Exc ValueError "Edge source_id not found in nodes: yy").
Proof.
  apply (first_dangling_edge_is_reported
           (set_edges [mkEdge "a" "b" CAUSED_BY "" ∅;
                       mkEdge "yy" "zz" CAUSED_BY "" ∅;
                       mkEdge "ww" "a" CAUSED_BY "" ∅] sample_trace)
           [mkEdge "a" "b" CAUSED_BY "" ∅] [mkEdge "ww" "a" CAUSED_BY "" ∅]
           (mkEdge "yy" "zz" CAUSED_BY "" ∅)).
  - reflexivity.
  - repeat constructor; by eexists.
  - left. reflexivity.
Defined.

Lemma root_nodes_spec t r :
  r ∈ root_nodes t ↔ parent_id r = None ∧ ∃ k, nodes t !! k = Some r.
Proof.
  unfold root_nodes. rewrite list_elem_of_filter, list_elem_of_In, in_map_iff.
  split.
  - intros (Hp & [k n] & <- & Hin). split; [done|]. exists k.
    by apply elem_of_map_to_list, list_elem_of_In.
  - intros (Hp & k & Hk). split; [done|]. exists (k, r). split; [done|].
    by apply list_elem_of_In, elem_of_map_to_list.
Qed.

Lemma ancestor_reaches_root t :
  depth_invariant t → parents_resolved t →
  ∀ (m : nat) k n, nodes t !! k = Some n → depth n = Z.of_nat m →
    ∃ r, ancestor t m n = Some r ∧ r ∈ root_nodes t.
Proof.
  intros Hinv Hres. induction m as [|m IH]; intros k n Hk Hd.
  - exists n. split; [done|]. apply root_nodes_spec.
    destruct (Hinv k n Hk) as [Hiff _]. split; [by apply Hiff|by exists k].
  - destruct (Hinv k n Hk) as [Hiff Hpar].
    destruct (parent_id n) as [p|] eqn:Hp.
    + destruct (Hres k n Hk) as [_ Hex].
      destruct (Hex p Hp) as [pn Hpn].
      destruct (IH p pn Hpn) as (r & Hr & Hroot).
      { specialize (Hpar p pn eq_refl Hpn). lia. }
      exists r. split; [|done]. simpl. by rewrite Hp, Hpn.
    + destruct Hiff as [_ Hz]. specialize (Hz eq_refl). lia.
Qed.

(** X6. In a graph that keeps the depth rule and whose parent links
    resolve, following [parent_id] from any node exactly [depth] times ends
    at a node of [root_nodes]; so [root_nodes] is not empty unless the graph
    has no node. *)
Theorem every_node_descends_from_a_root (t : TraceGraph) :
  depth_invariant t → parents_resolved t →
  (∀ k n, nodes t !! k = Some n →
     ∃ r, ancestor t (Z.to_nat (depth n)) n = Some r ∧ r ∈ root_nodes t) ∧
  (nodes t ≠ ∅ → root_nodes t ≠ []).
Proof.
  intros Hinv Hres.
  assert (∀ k n, nodes t !! k = Some n →
     ∃ r, ancestor t (Z.to_nat (depth n)) n = Some r ∧ r ∈ root_nodes t)
    as Hanc.
  { intros k n Hk. eapply ancestor_reaches_root; try done.
    destruct (Hres k n Hk) as [Hge _]. lia. }
  split; [done|]. intros Hne Hnil.
  destruct (map_choose _ Hne) as (k & n & Hk).
  destruct (Hanc k n Hk) as (r & _ & Hr). rewrite Hnil in Hr.
  by apply elem_of_nil in Hr.
Qed.

Lemma every_node_descends_from_a_root_witness :
  (∀ k n, nodes sample_trace !! k = Some n →
     ∃ r, ancestor sample_trace (Z.to_nat (depth n)) n = Some r ∧
          r ∈ root_nodes sample_trace) ∧
  (nodes sample_trace ≠ ∅ → root_nodes sample_trace ≠ []).
Proof.
  apply (every_node_descends_from_a_root sample_trace);
    apply (run_ops_keeps_depth_rule
             [OpAddNode (sample_node "a" 0 None 0);
              OpAddNode (sample_node "b" 1 (Some "a") 1)]
             (TraceGraph_default "t0")); try (vm_compute; reflexivity);
    split; intros k n; simpl; by rewrite lookup_empty.
Defined.

(** ** JSON codec: any payload, unknown keys, required fields *)

Lemma json_size_list_elem (l : list json) j :
  j ∈ l → (json_size j ≤ foldr (λ x n, json_size x + n) 0 l)%nat.
Proof.
  induction 1 as [|? ? ? _ IH]; simpl; [lia|]. etrans; [apply IH|lia].
Qed.

Lemma json_size_obj_elem (o : gmap string json) k j :
  o !! k = Some j →
  (json_size j ≤ map_fold (λ _ x n, json_size x + n) 0 o)%nat.
Proof.
  revert k j. induction o as [|i x m Hi Hfold IH] using map_first_key_ind;
    intros k j.
  - by rewrite lookup_empty.
  - rewrite map_fold_insert_first_key by done.
    rewrite lookup_insert. case_decide; intros ?; simplify_eq; [lia|].
    etrans; [by eapply IH|]. lia.
Qed.

Lemma json_ind' (P : json → Prop) :
  P JNull → (∀ b, P (JBool b)) → (∀ z, P (JInt z)) → (∀ q, P (JFloat q)) →
  (∀ s, P (JStr s)) →
  (∀ l, Forall P l → P (JArr l)) →
  (∀ o, map_Forall (λ _, P) o → P (JObj o)) →
  ∀ j, P j.
Proof.
  intros HN HB HI HF HS HA HO j.
  remember (json_size j) as n eqn:Hn. revert j Hn.
  induction (lt_wf n) as [n _ IH]. intros j ->.
  destruct j as [|b|z|q|s|l|o]; auto.
  - apply HA, Forall_forall. intros x Hx. eapply IH; [|done].
    apply json_size_list_elem in Hx. simpl. lia.
  - apply HO. intros k x Hx. eapply IH; [|done].
    apply json_size_obj_elem in Hx. simpl. lia.
Qed.

(** Writing what was read from a JSON value gives the value back. *)
Lemma to_json_from_json j : to_json (from_json j) = j.
Proof.
  induction j as [|b|z|q|s|l IH|o IH] using json_ind'; try done.
  - simpl. f_equal. rewrite map_map. rewrite <- (map_id l) at 2.
    apply map_ext_in. intros x Hx. rewrite Forall_forall in IH.
    by apply IH, list_elem_of_In.
  - simpl. f_equal. rewrite <- map_fmap_compose.
    rewrite <- (map_fmap_id o) at 2. apply map_fmap_ext.
    intros k x Hx. simpl. apply (IH k x Hx).
Qed.

Lemma to_json_normalize v : to_json (normalize v) = to_json v.
Proof. apply to_json_from_json. Qed.

Lemma to_json_normalize_dict (d : gmap string PyObj) :
  to_json <$> (normalize <$> d) = to_json <$> d.
Proof.
  rewrite <- map_fmap_compose. apply map_fmap_ext. intros k v _.
  apply to_json_normalize.
Qed.

Lemma validate_dict_dump_as {A B} (validate : string → json → outcome B)
    (dump : A → json) (back : A → B) (d : gmap string A) :
  (∀ k a, d !! k = Some a → validate k (dump a) = Returns (back a)) →
  validate_dict validate (JObj (dump <$> d)) = Returns (back <$> d).
Proof.
  intros Hd. simpl. apply sequence_map_returns. intros k.
  rewrite map_lookup_imap, !lookup_fmap.
  destruct (d !! k) as [a|] eqn:Hk; simpl; [|done]. by rewrite (Hd k a Hk).
Qed.

Lemma validate_list_dump_as {A B} (validate : json → outcome B)
    (dump : A → json) (back : A → B) (l : list A) :
  Forall (λ a, validate (dump a) = Returns (back a)) l →
  validate_list validate (JArr (map dump l)) = Returns (map back l).
Proof.
  simpl. induction 1 as [|a l Ha _ IH]; [done|]. simpl.
  rewrite Ha. simpl. by rewrite IH.
Qed.

Lemma validate_payload_any (d : gmap string PyObj) :
  validate_payload (JObj (to_json <$> d)) = Returns (normalize <$> d).
Proof. by apply validate_dict_dump_as. Qed.

Section any_payload.

Variable isoformat : datetime → string.
Variable fromisoformat : string → option datetime.
Variable uuid4_hex : string → string.

Lemma Node_validate_any key (n : Node) :
  (∀ d, start_time n = Some d → fromisoformat (isoformat d) = Some d) →
  (∀ d, end_time n = Some d → fromisoformat (isoformat d) = Some d) →
  Node_validate fromisoformat uuid4_hex key (Node_dump isoformat n)
    = Returns (normalize_node n).
Proof.
  intros Hs He. unfold Node_validate, Node_dump.
  field_step "id" (eq_refl (Returns (id n))).
  field_step "sequence_number" (eq_refl (Returns (sequence_number n))).
  field_step "name" (eq_refl (Returns (name n))).
  field_step "node_type" (eq_refl (Returns (node_type n))).
  field_step "status" (validate_NodeStatus_dump (status n)).
  field_step "parent_id" (validate_optional_str_dump (parent_id n)).
  field_step "depth" (eq_refl (Returns (depth n))).
  field_step "start_time"
    (validate_optional_datetime_dump isoformat fromisoformat (start_time n) Hs).
  field_step "end_time"
    (validate_optional_datetime_dump isoformat fromisoformat (end_time n) He).
  field_step "input_data" (validate_payload_any (input_data n)).
  field_step "output_data" (validate_payload_any (output_data n)).
  field_step "annotations" (validate_strs_dump (annotations n)).
  field_step "metadata" (validate_payload_any (metadata n)).
  field_step "error" (validate_optional_str_dump (error n)).
  field_step "error_type" (validate_optional_str_dump (error_type n)).
  field_step "error_traceback" (validate_optional_str_dump (error_traceback n)).
  done.
Qed.

Lemma Edge_validate_any (e : Edge) :
  Edge_validate (Edge_dump e) = Returns (normalize_edge e).
Proof.
  unfold Edge_validate, Edge_dump.
  field_step "source_id" (eq_refl (Returns (source_id e))).
  field_step "target_id" (eq_refl (Returns (target_id e))).
  field_step "edge_type" (validate_EdgeType_dump (edge_type e)).
  field_step "label" (eq_refl (Returns (label e))).
  field_step "metadata" (validate_payload_any (edge_metadata e)).
  done.
Qed.

Lemma TraceGraph_fields_any (t : TraceGraph) :
  (∀ d, d ∈ datetimes t → fromisoformat (isoformat d) = Some d) →
  TraceGraph_fields fromisoformat uuid4_hex (TraceGraph_dump isoformat t)
    = Returns (set_counter 0 (normalize_trace t)).
Proof.
  intros Hd. unfold TraceGraph_fields, TraceGraph_dump.
  field_step "schema_version" (eq_refl (Returns (schema_version t))).
  field_step "trace_id" (eq_refl (Returns (trace_id t))).
  field_step "name" (eq_refl (Returns (trace_name t))).
  field_step "nodes"
    (validate_dict_dump_as (Node_validate fromisoformat uuid4_hex)
       (Node_dump isoformat) normalize_node (nodes t)).
  2:{ intros k n Hk. apply Node_validate_any;
      intros d Hdn; eapply Hd, datetimes_of_node; eauto. }
  field_step "edges"
    (validate_list_dump_as Edge_validate Edge_dump normalize_edge (edges t)).
  2:{ apply Forall_forall. intros e _. apply Edge_validate_any. }
  field_step "start_time"
    (validate_optional_datetime_dump isoformat fromisoformat
       (trace_start_time t)).
  2:{ intros d Hdt. apply Hd, datetimes_of_trace. by left. }
  field_step "end_time"
    (validate_optional_datetime_dump isoformat fromisoformat
       (trace_end_time t)).
  2:{ intros d Hdt. apply Hd, datetimes_of_trace. by right. }
  field_step "metadata" (validate_payload_any (trace_metadata t)).
  done.
Qed.

Lemma Node_dump_normalize n :
  Node_dump isoformat (normalize_node n) = Node_dump isoformat n.
Proof.
  unfold Node_dump, normalize_node, duration_ms. simpl.
  by rewrite !to_json_normalize_dict.
Qed.

Lemma Edge_dump_normalize e : Edge_dump (normalize_edge e) = Edge_dump e.
Proof.
  unfold Edge_dump, normalize_edge. simpl. by rewrite to_json_normalize_dict.
Qed.

Lemma TraceGraph_dump_normalize t :
  TraceGraph_dump isoformat (normalize_trace t) = TraceGraph_dump isoformat t.
Proof.
  unfold TraceGraph_dump, normalize_trace, trace_duration_ms. simpl.
  rewrite to_json_normalize_dict. do 2 f_equal.
  assert (Node_dump isoformat <$> (normalize_node <$> nodes t)
          = Node_dump isoformat <$> nodes t) as ->.
  { rewrite <- map_fmap_compose. apply map_fmap_ext. intros k n _.
    apply Node_dump_normalize. }
  assert (map Edge_dump (map normalize_edge (edges t))
          = map Edge_dump (edges t)) as ->; [|done].
  rewrite map_map. apply map_ext. intros e. apply Edge_dump_normalize.
Qed.

Lemma edges_resolved_normalize t :
  edges_resolved t → edges_resolved (set_counter 0 (normalize_trace t)).
Proof.
  unfold edges_resolved. simpl. intros Ht. apply Forall_forall.
  intros e' (e & <- & He)%list_elem_of_In%in_map_iff. simpl.
  rewrite Forall_forall in Ht. apply list_elem_of_In in He.
  destruct (Ht e He) as [[? Hs] [? Htg]].
  rewrite !lookup_fmap, Hs, Htg. split; by eexists.
Qed.

End any_payload.


Lemma tuple_trace_resolved : edges_resolved tuple_trace.
Proof. constructor. Defined.


Lemma field_same_lookup {A} (o o' : gmap string json) key
    (validate : json → outcome A) default :
  o' !! key = o !! key →
  field o' key validate default = field o key validate default.
Proof. unfold field. by intros ->. Qed.

Lemma sequence_map_inv {A} (m : gmap string (outcome A)) (r : gmap string A) :
  sequence_map m = Returns r →
  ∀ k, m !! k = Returns <$> r !! k.
Proof.
  unfold sequence_map.
  destruct (map_to_list (omap raised m)) as [|[k' e] l] eqn:Hl; [|done].
  apply map_to_list_empty_iff in Hl. intros [= <-] k.
  rewrite lookup_omap.
  pose proof (f_equal (λ x : gmap string exn, x !! k) Hl) as Hk. simpl in Hk.
  rewrite lookup_omap, lookup_empty in Hk.
  by destruct (m !! k) as [[a|e]|].
Qed.

(** Peel the next field of a model validator off a hypothesis-free goal. *)
Ltac peel_field o key :=
  match goal with
  | |- context [field o key ?v ?d] =>
      let Hf := fresh "Hf" in
      destruct (field o key v d) eqn:Hf; [|done];
      change (@mbind outcome _ ?A ?B ?k (Returns ?a)) with (k a); cbv beta
  end.

Lemma required_field_inv {A} (o : gmap string json) key
    (validate : json → outcome A) a :
  field o key validate None = Returns a →
  ∃ j, o !! key = Some j ∧ validate j = Returns a.
Proof. unfold field. destruct (o !! key) as [j|]; [eauto|done]. Qed.

Section decoding_documents.

Variable fromisoformat : string → option datetime.
Variable uuid4_hex : string → string.

Lemma TraceGraph_fields_same_lookups o o' :
  (∀ key, key ∈ TraceGraph_field_names → o' !! key = o !! key) →
  TraceGraph_fields fromisoformat uuid4_hex (JObj o')
    = TraceGraph_fields fromisoformat uuid4_hex (JObj o).
Proof.
  intros Hsame. unfold TraceGraph_fields.
  rewrite (field_same_lookup o o' "schema_version")
    by (apply Hsame; set_solver).
  destruct (field o "schema_version" _ _); [|done].
  change (@mbind outcome _ ?A ?B ?k (Returns ?a)) with (k a); cbv beta.
  rewrite (field_same_lookup o o' "trace_id") by (apply Hsame; set_solver).
  destruct (field o "trace_id" _ _); [|done].
  change (@mbind outcome _ ?A ?B ?k (Returns ?a)) with (k a); cbv beta.
  rewrite (field_same_lookup o o' "name") by (apply Hsame; set_solver).
  destruct (field o "name" _ _); [|done].
  change (@mbind outcome _ ?A ?B ?k (Returns ?a)) with (k a); cbv beta.
  rewrite (field_same_lookup o o' "nodes") by (apply Hsame; set_solver).
  destruct (field o "nodes" _ _); [|done].
  change (@mbind outcome _ ?A ?B ?k (Returns ?a)) with (k a); cbv beta.
  rewrite (field_same_lookup o o' "edges") by (apply Hsame; set_solver).
  destruct (field o "edges" _ _); [|done].
  change (@mbind outcome _ ?A ?B ?k (Returns ?a)) with (k a); cbv beta.
  rewrite (field_same_lookup o o' "start_time") by (apply Hsame; set_solver).
  destruct (field o "start_time" _ _); [|done].
  change (@mbind outcome _ ?A ?B ?k (Returns ?a)) with (k a); cbv beta.
  rewrite (field_same_lookup o o' "end_time") by (apply Hsame; set_solver).
  destruct (field o "end_time" _ _); [|done].
  change (@mbind outcome _ ?A ?B ?k (Returns ?a)) with (k a); cbv beta.
  rewrite (field_same_lookup o o' "metadata") by (apply Hsame; set_solver).
  done.
Qed.

(** X8. Keys of a document that are no field of [TraceGraph] are not
    read: adding one, changing its value or taking it out changes neither
    the trace that is loaded nor the error that is raised.  [duration_ms] is
    such a key: what a document says there is ignored. *)
Theorem unknown_keys_are_ignored
    (o : gmap string json) (key : string) (j : json) :
  key ∉ TraceGraph_field_names →
  trace_from_json fromisoformat uuid4_hex (JObj (<[key := j]> o))
    = trace_from_json fromisoformat uuid4_hex (JObj o) ∧
  trace_from_json fromisoformat uuid4_hex (JObj (delete key o))
    = trace_from_json fromisoformat uuid4_hex (JObj o).
Proof.
  intros Hkey. unfold trace_from_json, TraceGraph_validate. split.
  - rewrite (TraceGraph_fields_same_lookups o (<[key := j]> o)); [done|].
    intros k Hk. apply lookup_insert_ne. by intros ->.
  - rewrite (TraceGraph_fields_same_lookups o (delete key o)); [done|].
    intros k Hk. apply lookup_delete_ne. by intros ->.
Qed.

Lemma Node_validate_required key j n :
  Node_validate fromisoformat uuid4_hex key j = Returns n →
  ∃ o, j = JObj o ∧
       o !! "sequence_number" = Some (JInt (sequence_number n)) ∧
       o !! "name" = Some (JStr (name n)) ∧
       o !! "node_type" = Some (JStr (node_type n)).
Proof.
  destruct j as [| | | | | |o]; try done. unfold Node_validate.
  peel_field o "id". peel_field o "sequence_number". peel_field o "name".
  peel_field o "node_type". peel_field o "status". peel_field o "parent_id".
  peel_field o "depth". peel_field o "start_time". peel_field o "end_time".
  peel_field o "input_data". peel_field o "output_data".
  peel_field o "annotations". peel_field o "metadata". peel_field o "error".
  peel_field o "error_type". peel_field o "error_traceback".
  intros [= <-]. simpl. exists o. split; [done|].
  repeat match goal with
         | H : field o _ _ None = Returns _ |- _ =>
             apply required_field_inv in H as ([] & ? & ?); simplify_eq/=
         end.
  done.
Qed.

Lemma trace_from_json_nodes o g :
  trace_from_json fromisoformat uuid4_hex (JObj o) = Returns g →
  field o "nodes" (validate_dict (Node_validate fromisoformat uuid4_hex))
    (Some ∅) = Returns (nodes g).
Proof.
  intros (Hf & _ & _)%trace_from_json_inv. revert Hf.
  unfold TraceGraph_fields.
  peel_field o "schema_version". peel_field o "trace_id". peel_field o "name".
  peel_field o "nodes". peel_field o "edges". peel_field o "start_time".
  peel_field o "end_time". peel_field o "metadata".
  by intros [= <-].
Qed.

(** X9. A document loads only if every entry of its [nodes] object is an
    object that carries [sequence_number] as an integer, [name] and
    [node_type] as strings; the nodes of the loaded trace sit under exactly
    the keys of the document, each read from the entry under its key, whose
    [id] the loader does not compare with the key. *)
Theorem loaded_nodes_follow_the_document
    (o ns : gmap string json) (g : TraceGraph) :
  o !! "nodes" = Some (JObj ns) →
  trace_from_json fromisoformat uuid4_hex (JObj o) = Returns g →
  dom (nodes g) = dom ns ∧
  ∀ key j, ns !! key = Some j →
    ∃ n fields,
      nodes g !! key = Some n ∧
      Node_validate fromisoformat uuid4_hex key j = Returns n ∧
      j = JObj fields ∧
      fields !! "sequence_number" = Some (JInt (sequence_number n)) ∧
      fields !! "name" = Some (JStr (name n)) ∧
      fields !! "node_type" = Some (JStr (node_type n)).
Proof.
  intros Hns Hg. apply trace_from_json_nodes in Hg.
  unfold field in Hg. rewrite Hns in Hg. simpl in Hg.
  pose proof (sequence_map_inv _ _ Hg) as Hall.
  assert (∀ key, (λ j, Node_validate fromisoformat uuid4_hex key j)
                   <$> ns !! key = Returns <$> nodes g !! key) as Hkey.
  { intros key. specialize (Hall key). rewrite map_lookup_imap in Hall.
    rewrite <- Hall. by destruct (ns !! key). }
  split.
  - apply set_eq. intros key. rewrite !elem_of_dom. specialize (Hkey key).
    destruct (ns !! key), (nodes g !! key); simpl in Hkey;
      split; intros [? ?]; by eauto || done.
  - intros key j Hj. specialize (Hkey key). rewrite Hj in Hkey. simpl in Hkey.
    destruct (nodes g !! key) as [n|] eqn:Hn; simpl in Hkey; [|done].
    injection Hkey as Hv.
    destruct (Node_validate_required key j n Hv) as (fields & -> & ? & ? & ?).
    by exists n, fields.
Qed.

End decoding_documents.

Lemma unknown_keys_are_ignored_witness :
  trace_from_json decimal_fromisoformat counting_uuid4_hex
    (JObj (<["duration_ms" := JFloat (Qmake 99 1)]> sample_fields))
  = trace_from_json decimal_fromisoformat counting_uuid4_hex
      (JObj sample_fields).
Proof.
  apply (unknown_keys_are_ignored decimal_fromisoformat counting_uuid4_hex
           sample_fields "duration_ms" (JFloat (Qmake 99 1))).
  unfold TraceGraph_field_names. intros Hin.
  repeat (apply elem_of_cons in Hin as [Hin|Hin]; [discriminate Hin|]).
  by apply elem_of_nil in Hin.
Defined.

Lemma loaded_nodes_follow_the_document_witness :
  dom (nodes (mkTraceGraph "0.1.0" "t5" ""
                {[ "k1" := mkNode "a" 0 "load" "custom" PENDING None 0 None
                             None ∅ ∅ [] ∅ None None None ]}
                [] None None ∅ 0))
  = dom sample_node_entries.
Proof.
  apply (loaded_nodes_follow_the_document decimal_fromisoformat
           counting_uuid4_hex sample_fields sample_node_entries).
  - reflexivity.
  - vm_compute. reflexivity.
Defined.

(** ** Files *)

Lemma trace_from_json_to_json_any
    (isoformat : datetime → string) (fromisoformat : string → option datetime)
    (uuid4_hex : string → string) (T : TraceGraph) (indent : option Z) :
  edges_resolved T →
  (∀ d, d ∈ datetimes T → fromisoformat (isoformat d) = Some d) →
  trace_from_json fromisoformat uuid4_hex (trace_to_json isoformat T indent)
    = Returns (set_counter 0 (normalize_trace T)).
Proof.
  intros Hes Hd. unfold trace_from_json, trace_to_json, TraceGraph_validate.
  rewrite (TraceGraph_fields_any isoformat) by done.
  apply (validate_edge_references_returns (set_counter 0 (normalize_trace T))).
  by apply edges_resolved_normalize.
Qed.



(** ** Context propagation: clearing, misnesting, reuse of a token *)

Lemma reset_unused_token {V} (token : ContextVar.Token V) (var : ContextVar.t V) :
  ContextVar.serial token ∈ ContextVar.unused var →
  ContextVar.reset token var =
    (Returns tt,
     ContextVar.mk (ContextVar.old_value token) (ContextVar.issued var)
       (ContextVar.unused var ∖ {[ContextVar.serial token]})).
Proof. intros Hin. unfold ContextVar.reset. by rewrite bool_decide_eq_true_2. Qed.

Lemma reset_used_token {V} (token : ContextVar.Token V) (var : ContextVar.t V) :
  ContextVar.serial token ∉ ContextVar.unused var →
  ContextVar.reset token var =
    (Raises (Exc RuntimeError "Token has already been used once"), var).
Proof. intros Hin. unfold ContextVar.reset. by rewrite bool_decide_eq_false_2. Qed.

(** X11. [clear_context] returns from every state and leaves both slots
    reading [None]; it sets, it does not reset, so a token taken before it
    still works: a scope that is cleared inside puts back on its exit what
    was current before it was entered. *)
Theorem clear_context_unsets_but_keeps_tokens (ctx : Context) :
  (clear_context ctx).1 = Returns tt ∧
  (get_current_trace (clear_context ctx).2).1 = Returns None ∧
  (get_current_node (clear_context ctx).2).1 = Returns None ∧
  (∀ trace, ∃ token ctx1 ctx3,
     push_current_trace trace ctx = (Returns token, ctx1) ∧
     reset_current_trace token (clear_context ctx1).2 = (Returns tt, ctx3) ∧
     (get_current_trace ctx3).1 = (get_current_trace ctx).1 ∧
     (get_current_node ctx3).1 = Returns None).
Proof.
  destruct ctx as [[tb ti tu] [nb ni nu]]. split_and!; try reflexivity.
  intros trace. eexists _, _, _. split; [reflexivity|].
  unfold reset_current_trace, on_trace_var, clear_context, mbind, Py_bind.
  simpl. rewrite reset_unused_token by (simpl; set_solver).
  split_and!; reflexivity.
Qed.

(** X12. A token restores what it recorded, not the top of a stack.  When
    two pushes are undone in the order they were made (the first token
    first), both resets return, and the slot is left holding the trace of
    the first push, not what was current before the two. *)
Theorem misnested_resets_leave_a_stale_trace
    (ctx : Context) (first second : TraceGraph) :
  ∃ token1 ctx1 token2 ctx2 ctx3 ctx4,
    push_current_trace first ctx = (Returns token1, ctx1) ∧
    push_current_trace second ctx1 = (Returns token2, ctx2) ∧
    reset_current_trace token1 ctx2 = (Returns tt, ctx3) ∧
    (get_current_trace ctx3).1 = (get_current_trace ctx).1 ∧
    reset_current_trace token2 ctx3 = (Returns tt, ctx4) ∧
    (get_current_trace ctx4).1 = Returns (Some first).
Proof.
  destruct ctx as [[tb ti tu] nv]. eexists _, _, _, _, _, _.
  split; [reflexivity|]. split; [reflexivity|].
  unfold reset_current_trace, on_trace_var. simpl.
  rewrite reset_unused_token by (simpl; set_solver).
  split; [reflexivity|]. split; [reflexivity|]. simpl.
  rewrite reset_unused_token by (simpl; set_solver by lia).
  split; reflexivity.
Qed.

(** X13. A token works once.  After [reset_current_trace] with a token
    has returned, a second reset with the same token raises [RuntimeError]
    and changes nothing, whatever was pushed and reset in between by a
    well-nested run. *)
Theorem token_cannot_be_reused
    (ctx : Context) (trace : TraceGraph) (between : scope) :
  ∃ token ctx1 ctx2 ctx3,
    push_current_trace trace ctx = (Returns token, ctx1) ∧
    reset_current_trace token ctx1 = (Returns tt, ctx2) ∧
    run_scope between ctx2 = (Returns tt, ctx3) ∧
    reset_current_trace token ctx3
      = (Raises (Exc RuntimeError "Token has already been used once"), ctx3).
Proof.
  destruct ctx as [[tb ti tu] nv].
  destruct (set_reset_frame (Some trace) (ContextVar.mk tb ti tu) _
              (var_frame_refl _)) as (tv2 & Hreset & Hf).
  destruct (run_scope_frame between (mkContext tv2 nv))
    as ([tv3 nv3] & Hrun & (Hb & Hi & Hu) & _).
  eexists _, _, (mkContext tv2 nv), (mkContext tv3 nv3).
  split; [reflexivity|]. split.
  { unfold reset_current_trace, on_trace_var. simpl in *. by rewrite Hreset. }
  split; [exact Hrun|].
  unfold reset_current_trace, on_trace_var. simpl in *.
  unfold ContextVar.reset in Hreset. simpl in Hreset.
  rewrite bool_decide_eq_true_2 in Hreset by set_solver.
  injection Hreset as <-. simpl in *.
  rewrite reset_used_token; [done|]. simpl.
  rewrite Hu by lia. set_solver.
Qed.

(** ** HTTP instrumentation: pass-through, exclusion, failures, layers *)

Section instrumentation_edges.
Context {R : Runtime}.

Lemma create_http_span_without_trace method url url_filter exclude_urls
    (w : World Env) :
  current_trace_of w = None →
  create_http_span method url url_filter exclude_urls w = (Returns None, w).
Proof.
  intros Hnone. unfold create_http_span. unfold mbind at 1, Py_bind at 1.
  by rewrite get_current_trace_in_world, Hnone.
Qed.

Lemma search_patterns_first_match url pre pattern post :
  Forall (passes_over url) pre →
  re_search pattern url = Returns true →
  search_patterns url (pre ++ pattern :: post) = Returns true.
Proof.
  intros Hpre Hm. induction Hpre as [|q pre [Hq|(exc & Hq & Hc)] _ IH]; simpl.
  - by rewrite Hm.
  - by rewrite Hq.
  - rewrite Hq. by rewrite decide_True.
Qed.

Lemma search_patterns_other_error url pre pattern post exc :
  Forall (passes_over url) pre →
  re_search pattern url = Raises exc → exc_class exc ≠ ReError →
  search_patterns url (pre ++ pattern :: post) = Raises exc.
Proof.
  intros Hpre Hm Hc.
  induction Hpre as [|q pre [Hq|(exc' & Hq & Hc')] _ IH]; simpl.
  - rewrite Hm. by rewrite decide_False.
  - by rewrite Hq.
  - rewrite Hq. by rewrite decide_True.
Qed.

Lemma _should_skip_nonempty url pre pattern post :
  _should_skip url (Some (pre ++ pattern :: post))
    = search_patterns url (pre ++ pattern :: post).
Proof. by destruct pre. Qed.

Lemma create_http_span_with_trace method url url_filter exclude_urls
    (w : World Env) trace :
  current_trace_of w = Some trace →
  create_http_span method url url_filter exclude_urls w =
    match _should_skip
            match url_filter with
            | Some f => match f url with Returns v => v | Raises _ => url end
            | None => url
            end exclude_urls with
    | Raises exc => (Raises exc, w)
    | Returns true => (Returns None, w)
    | Returns false =>
        (span ← Span_init trace
                  (_span_name method
                     match url_filter with
                     | Some f =>
                         match f url with Returns v => v | Raises _ => url end
                     | None => url
                     end) "http_request" ;
         Span_input span
           {[ "method" := PyStr (upper method);
              "url" := PyStr
                         match url_filter with
                         | Some f =>
                             match f url with
                             | Returns v => v
                             | Raises _ => url
                             end
                         | None => url
                         end ]} ;;
         mret (Some span)) w
    end.
Proof.
  intros Htrace. unfold create_http_span. unfold mbind at 1, Py_bind at 1.
  rewrite get_current_trace_in_world, Htrace.
  unfold mbind at 1, Py_bind at 1, pure_call at 1.
  rewrite _apply_url_filter_returns.
  unfold mbind at 1, Py_bind at 1, pure_call at 1.
  by destruct (_should_skip _ exclude_urls) as [[]|exc].
Qed.

(** X14. Without a current trace the instrumentation does nothing:
    [create_http_span] returns [None] and leaves the world as it is,
    without calling the filter, a pattern or [Span]; the patched request is
    the request it wraps, with the same result and the same effects. *)
Theorem no_trace_no_span
    (url_filter : option (string → outcome string))
    (exclude_urls : option (list string)) (args : Args) (method url : string)
    (w : World Env) :
  current_trace_of w = None →
  create_http_span method url url_filter exclude_urls w = (Returns None, w) ∧
  _patched_request url_filter exclude_urls args method url w
    = _original_request args method url w.
Proof.
  intros Hnone.
  pose proof (create_http_span_without_trace method url url_filter
                exclude_urls w Hnone) as Hc.
  split; [done|]. unfold _patched_request, mbind, Py_bind. by rewrite Hc.
Qed.

(** X15. The loop of [_should_skip] stops at the first pattern that finds
    a match and does not look at the patterns after it; patterns before it
    that find nothing or raise [re.error] are passed over; an exception of
    another class raised by a pattern that is reached comes out of
    [_should_skip].  No list and the empty list skip nothing. *)
Theorem should_skip_stops_at_first_match
    (url : string) (pre post : list string) (pattern : string) :
  Forall (passes_over url) pre →
  (re_search pattern url = Returns true →
     _should_skip url (Some (pre ++ pattern :: post)) = Returns true) ∧
  (∀ exc, re_search pattern url = Raises exc → exc_class exc ≠ ReError →
     _should_skip url (Some (pre ++ pattern :: post)) = Raises exc) ∧
  _should_skip url (Some pre) = Returns false ∧
  _should_skip url None = Returns false ∧
  _should_skip url (Some []) = Returns false.
Proof.
  intros Hpre. split_and!; try done.
  - intros Hm. rewrite _should_skip_nonempty.
    by apply search_patterns_first_match.
  - intros exc Hm Hc. rewrite _should_skip_nonempty.
    by apply search_patterns_other_error.
  - destruct pre as [|q pre]; [done|].
    change (search_patterns url (q :: pre) = Returns false).
    induction Hpre as [|q' pre' [Hq|(exc & Hq & Hc)] _ IH]; simpl; [done|..].
    + by rewrite Hq.
    + rewrite Hq. by rewrite decide_True.
Qed.

(** X16. A request whose filtered URL matches an exclusion pattern is not
    traced: with a trace current, when the patterns before the matching one
    are passed over, [create_http_span] returns [None] without touching the
    world and the patched request is the request it wraps.  The patterns
    are tried on the URL the filter returned, not on the URL of the call. *)
Theorem excluded_request_passes_through
    (url_filter : option (string → outcome string))
    (pre post : list string) (pattern : string)
    (args : Args) (method url filtered : string) (w : World Env)
    (trace : TraceGraph) :
  current_trace_of w = Some trace →
  _apply_url_filter url url_filter = Returns filtered →
  Forall (passes_over filtered) pre →
  re_search pattern filtered = Returns true →
  create_http_span method url url_filter (Some (pre ++ pattern :: post)) w
    = (Returns None, w) ∧
  _patched_request url_filter (Some (pre ++ pattern :: post)) args method url w
    = _original_request args method url w.
Proof.
  intros Htrace Hf Hpre Hm. rewrite _apply_url_filter_returns in Hf.
  injection Hf as Hf.
  assert (create_http_span method url url_filter
            (Some (pre ++ pattern :: post)) w = (Returns None, w)) as Hc.
  { rewrite (create_http_span_with_trace _ _ _ _ _ trace Htrace), Hf.
    rewrite _should_skip_nonempty.
    by rewrite search_patterns_first_match. }
  split; [done|]. unfold _patched_request, mbind, Py_bind. by rewrite Hc.
Qed.

(** X17. A pattern failure that is not [re.error] is not contained: with
    a trace current, when a pattern that is reached raises an exception of
    another class, [create_http_span] raises it and so does the patched
    request, which does not make the request. *)
Theorem other_pattern_errors_abort_the_request
    (url_filter : option (string → outcome string))
    (pre post : list string) (pattern : string) (exc : exn)
    (args : Args) (method url filtered : string) (w : World Env)
    (trace : TraceGraph) :
  current_trace_of w = Some trace →
  _apply_url_filter url url_filter = Returns filtered →
  Forall (passes_over filtered) pre →
  re_search pattern filtered = Raises exc → exc_class exc ≠ ReError →
  create_http_span method url url_filter (Some (pre ++ pattern :: post)) w
    = (Raises exc, w) ∧
  _patched_request url_filter (Some (pre ++ pattern :: post)) args method url w
    = (Raises exc, w).
Proof.
  intros Htrace Hf Hpre Hm Hc. rewrite _apply_url_filter_returns in Hf.
  injection Hf as Hf.
  assert (create_http_span method url url_filter
            (Some (pre ++ pattern :: post)) w = (Raises exc, w)) as Hcr.
  { rewrite (create_http_span_with_trace _ _ _ _ _ trace Htrace), Hf.
    rewrite _should_skip_nonempty.
    by rewrite (search_patterns_other_error _ _ _ _ exc). }
  split; [done|]. unfold _patched_request, mbind, Py_bind. by rewrite Hcr.
Qed.


End instrumentation_edges.

Lemma Session_request_without_trace (R : Runtime)
    (layers : list Instrumentation) args method url (w : World Env) :
  current_trace_of w = None →
  Session_request R layers args method url w
    = _original_request args method url w.
Proof.
  intros Hnone. induction layers as [|layer rest IH]; [done|].
  simpl Session_request.
  pose proof (no_trace_layer := create_http_span_without_trace
                (R := with_request R (Session_request R rest))
                method url (url_filter_of layer) (exclude_urls_of layer) w
                Hnone).
  unfold _patched_request, mbind, Py_bind. rewrite no_trace_layer.
  exact IH.
Qed.


Lemma no_trace_no_span_witness :
  create_http_span (R := failing_recorder) "get" "https://down/"
    (Some (λ _, Raises (Exc (OtherException "KeyError") "token")))
    (Some ["("]) idle_world = (Returns None, idle_world) ∧
  _patched_request (R := failing_recorder)
    (Some (λ _, Raises (Exc (OtherException "KeyError") "token")))
    (Some ["("]) tt "get" "https://down/" idle_world
  = _original_request (Runtime := failing_recorder) tt "get" "https://down/"
      idle_world.
Proof.
  apply (no_trace_no_span (R := failing_recorder)). reflexivity.
Defined.

Lemma failing_recorder_passes_over :
  Forall (passes_over (R := failing_recorder) "https://skip/")
    ["("; "https://other/"].
Proof.
  apply Forall_cons_2; [|apply Forall_cons_2; [|apply Forall_nil_2]].
  - right. eexists. split; reflexivity.
  - left. reflexivity.
Defined.

Lemma should_skip_stops_at_first_match_witness :
  _should_skip (R := failing_recorder) "https://skip/"
    (Some (["("; "https://other/"] ++ "https://skip/" :: ["("])) = Returns true.
Proof.
  pose proof (should_skip_stops_at_first_match (R := failing_recorder)
                "https://skip/" ["("; "https://other/"] ["("] "https://skip/"
                failing_recorder_passes_over) as (Hmatch & _).
  apply Hmatch. reflexivity.
Defined.

Lemma excluded_request_passes_through_witness :
  _patched_request (R := failing_recorder) None
    (Some (["("; "https://other/"] ++ "https://skip/" :: ["("]))
    tt "get" "https://skip/" tracing_world
  = _original_request (Runtime := failing_recorder) tt "get" "https://skip/"
      tracing_world.
Proof.
  apply (excluded_request_passes_through (R := failing_recorder) None
           ["("; "https://other/"] ["("] "https://skip/" tt "get"
           "https://skip/" "https://skip/" tracing_world sample_trace).
  - reflexivity.
  - reflexivity.
  - exact failing_recorder_passes_over.
  - reflexivity.
Defined.

Lemma other_pattern_errors_abort_the_request_witness :
  _patched_request (R := overflowing_recorder) None
    (Some ([] ++ "a{99999999999}" :: [])) tt "get" "https://up/"
    (tracing_world : World (Env (Runtime := overflowing_recorder)))
  = (Raises (Exc (OtherException "OverflowError")
               "the repetition number is too large"), tracing_world).
Proof.
  apply (other_pattern_errors_abort_the_request (R := overflowing_recorder)
           None [] [] "a{99999999999}"
           (Exc (OtherException "OverflowError")
              "the repetition number is too large")
           tt "get" "https://up/" "https://up/" tracing_world sample_trace).
  - reflexivity.
  - reflexivity.
  - constructor.
  - reflexivity.
  - discriminate.
Defined.

(** ** Runtime configuration *)

Lemma startswith_app prefix rest : startswith (prefix +:+ rest) prefix = true.
Proof.
  induction prefix as [|c prefix IH]; [done|]. simpl.
  by rewrite Ascii.eqb_refl, IH.
Qed.

Lemma drop_chars_app prefix rest :
  drop_chars (String.length prefix) (prefix +:+ rest) = rest.
Proof. induction prefix as [|c prefix IH]; [done|]. simpl. apply IH. Qed.

Lemma startswith_inv s prefix :
  startswith s prefix = true → ∃ rest, s = prefix +:+ rest.
Proof.
  revert s. induction prefix as [|c prefix IH]; intros s; [by exists s|].
  destruct s as [|d s]; [done|]. simpl.
  intros [Hc Hs]%andb_true_iff. apply Ascii.eqb_eq in Hc as ->.
  destruct (IH s Hs) as [rest ->]. by exists rest.
Qed.

Lemma removeprefix_app prefix rest : removeprefix (prefix +:+ rest) prefix = rest.
Proof. unfold removeprefix. by rewrite startswith_app, drop_chars_app. Qed.

Section config_properties.

Variable StorageBackend : Type.
Variable MemoryStore : StorageBackend.
Variable FileStore : string → StorageBackend.

(** X20. [_resolve_storage] gives a backend instance back as it is, makes
    a [MemoryStore] of exactly ["memory"], and of ["file://"] followed by
    any text a [FileStore] on that text, kept as it is: the empty path is
    accepted and only the first ["file://"] is taken off.  Every other
    string raises [ValueError], and nothing else does. *)
Theorem resolve_storage_shorthands :
  (∀ b, _resolve_storage StorageBackend MemoryStore FileStore (Backend b)
        = Returns b) ∧
  _resolve_storage StorageBackend MemoryStore FileStore (Shorthand "memory")
    = Returns MemoryStore ∧
  (∀ path, _resolve_storage StorageBackend MemoryStore FileStore
             (Shorthand ("file://" +:+ path)) = Returns (FileStore path)) ∧
  (∀ arg, (∃ exc, _resolve_storage StorageBackend MemoryStore FileStore arg
                  = Raises exc ∧ exc_class exc = ValueError) ↔
          ∃ s, arg = Shorthand s ∧ s ≠ "memory" ∧
               ∀ path, s ≠ "file://" +:+ path).
Proof.
  split_and!.
  - done.
  - done.
  - intros path. unfold _resolve_storage.
    rewrite decide_False by done.
    by rewrite startswith_app, removeprefix_app.
  - intros [s|b]; unfold _resolve_storage.
    + destruct (decide (s = "memory")) as [->|Hm].
      * split; [by intros (? & ? & _)|]. by intros (s & [= <-] & ? & _).
      * destruct (startswith s "file://") eqn:Hs.
        -- split; [by intros (? & ? & _)|]. intros (s' & [= <-] & _ & Hno).
           apply startswith_inv in Hs as [rest ->]. by destruct (Hno rest).
        -- split; [|by eauto]. intros _. exists s. split_and!; [done|done|].
           intros path ->. by rewrite startswith_app in Hs.
    + split; [by intros (? & ? & _)|]. by intros (s & ? & _).
Qed.

(** X21. [configure] assigns the five settings one after the other and
    resolves the storage at the third.  A call that returns has replaced
    every setting, so nothing an earlier call set is left (an argument left
    out is put back to its default).  A call with a storage that does not
    resolve raises after it has replaced [capture_level] and
    [auto_instrument], and leaves the other three as they were. *)
Theorem configure_is_stepwise
    (level : CaptureLevel) (instrument : option (list string))
    (store : storage_arg StorageBackend) (redact : option (list string))
    (max_size : option Z) (before : Settings StorageBackend) :
  (∀ resolved,
     _resolve_storage StorageBackend MemoryStore FileStore store
       = Returns resolved →
     configure StorageBackend MemoryStore FileStore level instrument store
       redact max_size before
     = (Returns tt,
        mkSettings StorageBackend level (default [] instrument) resolved
          (default [] redact) max_size)) ∧
  (∀ exc,
     _resolve_storage StorageBackend MemoryStore FileStore store = Raises exc →
     configure StorageBackend MemoryStore FileStore level instrument store
       redact max_size before
     = (Raises exc,
        mkSettings StorageBackend level (default [] instrument)
          (storage StorageBackend before)
          (redact_patterns StorageBackend before)
          (max_output_size StorageBackend before))).
Proof.
  split; intros r Hr; unfold configure, mbind, Py_bind, get_state, put_state,
    without_effect; simpl; by rewrite Hr.
Qed.

End config_properties.

Lemma configure_is_stepwise_witness :
  (configure sample_store InMemory OnDisk minimal None (Shorthand "memory")
     None None
     (configure sample_store InMemory OnDisk full (Some ["requests"])
        (Shorthand "file://traces") (Some ["token=.*"]) (Some 10)
        (Settings_default sample_store InMemory)).2)
  = (Returns tt, mkSettings sample_store minimal [] InMemory [] None) ∧
  configure sample_store InMemory OnDisk minimal None (Shorthand "s3://bucket")
    None None
    (mkSettings sample_store full ["requests"] (OnDisk "traces") ["token=.*"]
       (Some 10))
  = (Raises (Exc ValueError
       "Unsupported storage value. Use 'memory', 'file://<path>', or a StorageBackend instance."),
     mkSettings sample_store minimal [] (OnDisk "traces") ["token=.*"]
       (Some 10)).
Proof.
  split.
  - apply (configure_is_stepwise sample_store InMemory OnDisk minimal None
             (Shorthand "memory") None None). reflexivity.
  - apply (configure_is_stepwise sample_store InMemory OnDisk minimal None
             (Shorthand "s3://bucket") None None). reflexivity.
Defined.

(** ** The inspect command *)

#[local] Instance item_le_total : Total item_le.
Proof. intros a b. unfold item_le. apply String.leb_total. Qed.

Lemma total_bump counts key : total (bump counts key) = S (total counts).
Proof.
  unfold total, bump. destruct (counts !! key) as [c|] eqn:Hk; simpl.
  - rewrite <- insert_delete_eq.
    rewrite map_to_list_insert by apply lookup_delete_eq.
    rewrite <- (map_to_list_delete counts key c Hk). simpl. lia.
  - by rewrite map_to_list_insert.
Qed.

Lemma Counter_from_total keys : ∀ counts,
  total (foldl bump counts keys) = (total counts + length keys)%nat.
Proof.
  induction keys as [|key keys IH]; intros counts; simpl; [lia|].
  rewrite IH, total_bump. lia.
Qed.

Lemma Counter_from_lookup keys key : ∀ counts,
  default 0%nat (foldl bump counts keys !! key) =
    (default 0%nat (counts !! key)
     + length (filter (λ k, k = key) keys))%nat ∧
  (is_Some (foldl bump counts keys !! key) ↔
   is_Some (counts !! key) ∨ key ∈ keys).
Proof.
  induction keys as [|k keys IH]; intros counts; simpl.
  - split; [lia|]. split; [by left|]. intros [?|?%elem_of_nil]; done.
  - destruct (IH (bump counts k)) as [Hn Hs]. rewrite Hn, Hs. unfold bump.
    rewrite lookup_insert, filter_cons. destruct (decide (k = key)) as [->|Hne].
    + simpl. split; [lia|]. split; [intros _; right; by left|by eauto].
    + split; [done|]. rewrite elem_of_cons. naive_solver.
Qed.

Lemma elem_of_filter_length (keys : list string) key :
  key ∈ keys ↔ (0 < length (filter (λ k, k = key) keys))%nat.
Proof.
  induction keys as [|k keys IH]; simpl.
  - split; [by intros ?%elem_of_nil|lia].
  - rewrite filter_cons, elem_of_cons.
    destruct (decide (k = key)) as [->|Hne]; simpl.
    + split; [lia|by left].
    + rewrite IH. split; [by intros [?|?]|by right].
Qed.

Lemma Counter_total keys : total (Counter keys) = length keys.
Proof.
  unfold Counter. change (total (foldl bump ∅ keys) = length keys).
  rewrite Counter_from_total. unfold total. by rewrite map_to_list_empty.
Qed.

Lemma Counter_lookup keys key n :
  Counter keys !! key = Some n ↔
  (0 < n)%nat ∧ n = length (filter (λ k, k = key) keys).
Proof.
  change (foldl bump ∅ keys !! key = Some n ↔
          (0 < n)%nat ∧ n = length (filter (λ k, k = key) keys)).
  destruct (Counter_from_lookup keys key ∅) as [Hn Hs].
  rewrite lookup_empty in Hn, Hs. simpl in Hn.
  pose proof (elem_of_filter_length keys key) as Hin.
  split.
  - intros Hk. rewrite Hk in Hn, Hs. simpl in Hn. split; [|done].
    rewrite Hn. apply Hin. destruct Hs as [Hs _].
    destruct (Hs (mk_is_Some _ _ eq_refl)) as [[? ?]|?]; done.
  - intros [Hpos ->]. destruct Hs as [_ Hs].
    destruct Hs as [m Hm]; [right; by apply Hin|].
    rewrite Hm in Hn. simpl in Hn. by rewrite Hn in Hm.
Qed.

Lemma sorted_items_total counts :
  sum_list_with snd (sorted_items counts) = total counts.
Proof. unfold sorted_items, total. by rewrite merge_sort_Permutation. Qed.

Lemma node_values_length trace : length (node_values trace) = size (nodes trace).
Proof.
  unfold node_values. by rewrite length_fmap, length_map_to_list.
Qed.


Section cli_properties.
Context {F : Files}.
Variable fromisoformat : string → option datetime.
Variable uuid4_hex : string → string.
Variable render_trace : TraceGraph → CaptureLevel → outcome string.
Variable format_0f : Q → string.

Lemma print_all_appends lines (t : Terminal Disk) :
  print_all lines t = (Returns tt, mkTerminal (disk t) (stdout t ++ lines)).
Proof.
  revert t. induction lines as [|line lines IH]; intros [d out]; simpl.
  - by rewrite app_nil_r.
  - unfold mbind, Py_bind, print. simpl. rewrite IH. simpl.
    by rewrite <- app_assoc.
Qed.


End cli_properties.

